(** * Shallow embedding of the Playwright tools of [reflex_dev_agent.py]

    The MCP server [reflex_dev_agent.py] runs every browser inspection in a
    child Python process.  The parent side of each tool is a short
    straight-line program: an optional health check of a local dev port, the
    creation of the child, a bounded wait for it, and the classification of
    its exit code and standard output.  This file embeds those parent-side
    programs (and the parts of the child programs the properties talk about)
    and proves what they do on every path. *)

From Stdlib Require Import String List ZArith Bool Ascii Lia.
Import ListNotations.
Local Open Scope Z_scope.
Local Open Scope string_scope.

Set Warnings "-register-all".

(** ** Python values *)

(** JSON values as [json.loads] produces them.  Numbers are integers: the
    tools only exchange integer fields (exit codes, counts, milliseconds). *)
Inductive jval : Type :=
| JNull
| JBool (b : bool)
| JNum (z : Z)
| JStr (s : string)
| JArr (l : list jval)
| JObj (o : list (string * jval)).

(** A Python [dict] with string keys, in insertion order. *)
Definition dict := list (string * jval).

Definition keys (d : dict) : list string := map fst d.

Fixpoint getitem (k : string) (d : dict) : option jval :=
  match d with
  | [] => None
  | (k', v) :: d' => if String.eqb k k' then Some v else getitem k d'
  end.

(** [d[k] = v]: overwrite in place when the key exists, append otherwise. *)
Fixpoint setitem (k : string) (v : jval) (d : dict) : dict :=
  match d with
  | [] => [(k, v)]
  | (k', v') :: d' =>
      if String.eqb k k' then (k, v) :: d' else (k', v') :: setitem k v d'
  end.

(** [d.update(o)]: the items of [o] are assigned one after the other. *)
Definition update (d o : dict) : dict :=
  fold_left (fun acc kv => setitem (fst kv) (snd kv) acc) o d.

(** [s[:n]] *)
Definition trunc (n : nat) (s : string) : string := substring 0 n s.

(** [needle in hay] for strings. *)
Definition py_in (needle hay : string) : bool :=
  match index 0 needle hay with Some _ => true | None => false end.

(** Python truthiness of a string: [not s] holds for the empty string only. *)
Definition str_empty (s : string) : bool := String.eqb s "".

(** [str(n)] for an integer. *)
Fixpoint uint_str (u : Decimal.uint) : string :=
  match u with
  | Decimal.Nil => ""
  | Decimal.D0 u => String "0" (uint_str u)
  | Decimal.D1 u => String "1" (uint_str u)
  | Decimal.D2 u => String "2" (uint_str u)
  | Decimal.D3 u => String "3" (uint_str u)
  | Decimal.D4 u => String "4" (uint_str u)
  | Decimal.D5 u => String "5" (uint_str u)
  | Decimal.D6 u => String "6" (uint_str u)
  | Decimal.D7 u => String "7" (uint_str u)
  | Decimal.D8 u => String "8" (uint_str u)
  | Decimal.D9 u => String "9" (uint_str u)
  end.

Definition z_str (z : Z) : string :=
  match Z.to_int z with
  | Decimal.Pos u => uint_str u
  | Decimal.Neg u => String "-" (uint_str u)
  end.

(** ** Exceptions and the parent-side monad *)

Inductive exn : Type :=
| OSError (msg : string)            (* process creation failed *)
| TimeoutError                      (* [asyncio.wait_for] deadline *)
| ValueError (msg : string)         (* [json.loads] parse failure *)
| TypeError (msg : string)
| KeyError (msg : string)
| AttributeError (msg : string)
| UnboundLocalError (name : string).

(** [str(e)] *)
Definition exn_str (e : exn) : string :=
  match e with
  | OSError m | ValueError m | TypeError m | KeyError m | AttributeError m => m
  | TimeoutError => ""
  | UnboundLocalError n =>
      "cannot access local variable '" ++ n ++ "' where it is not associated with a value"
  end.

Inductive outcome (A : Type) : Type :=
| Ok (a : A)
| Raise (e : exn).
Arguments Ok {A} a.
Arguments Raise {A} e.

(** A parent-side computation: it may raise, and it counts the child
    processes it has created. *)
Definition M (A : Type) : Type := nat -> outcome A * nat.

Definition ret {A} (a : A) : M A := fun n => (Ok a, n).
Definition raise {A} (e : exn) : M A := fun n => (Raise e, n).
Definition bind {A B} (m : M A) (f : A -> M B) : M B :=
  fun n => match m n with
           | (Ok a, n') => f a n'
           | (Raise e, n') => (Raise e, n')
           end.
(** [try: m except Exception as e: h(e)] *)
Definition try_except {A} (m : M A) (h : exn -> M A) : M A :=
  fun n => match m n with
           | (Ok a, n') => (Ok a, n')
           | (Raise e, n') => h e n'
           end.
Definition lift {A} (o : outcome A) : M A :=
  fun n => (o, n).

Notation "x <- m ;; k" := (bind m (fun x => k))
  (at level 61, m at next level, right associativity).
Notation "m ;;; k" := (bind m (fun _ => k))
  (at level 61, right associativity).

(** Running a computation from zero created processes. *)
Definition run {A} (m : M A) : outcome A * nat := m 0%nat.

(** Reading a local variable: an unassigned one raises [UnboundLocalError]. *)
Definition read_local {A} (name : string) (x : option A) : M A :=
  match x with Some a => ret a | None => raise (UnboundLocalError name) end.

(** ** Bytes and text *)

(** A Rocq [string] holds arbitrary bytes.  Text ([str]) is held as its
    UTF-8 encoding, so [bytes.decode()] of valid UTF-8 returns the bytes
    unchanged and only its failure needs modelling. *)

(** A UTF-8 continuation byte, 0x80-0xbf. *)
Definition utf8_cont (c : ascii) : bool :=
  let b := nat_of_ascii c in Nat.leb 128 b && Nat.leb b 191.

(** The second byte after the lead byte [b] of a three- or four-byte
    sequence: a continuation byte, further restricted after 0xe0 (at least
    0xa0), 0xed (below 0xa0), 0xf0 (at least 0x90) and 0xf4 (below 0x90). *)
Definition utf8_second_ok (b : nat) (c2 : ascii) : bool :=
  let b2 := nat_of_ascii c2 in
  utf8_cont c2 &&
  (if Nat.eqb b 224 then Nat.leb 160 b2
   else if Nat.eqb b 237 then Nat.ltb b2 160
   else if Nat.eqb b 240 then Nat.leb 144 b2
   else if Nat.eqb b 244 then Nat.ltb b2 144
   else true).

(** CPython's strict UTF-8 decoder ([unicode_decode_utf8]) up to its first
    error: [None] when [s] is valid, otherwise the start and end positions
    of the error, its reason, and the byte at the start.  [pos] is the
    position of [s] in the whole input.  A sequence cut short by the end of
    the input is "unexpected end of data" up to the end, once the bytes
    present have passed their checks. *)
Fixpoint utf8_error (pos : nat) (s : string) {struct s}
  : option (nat * nat * string * ascii) :=
  match s with
  | EmptyString => None
  | String c r =>
    let b := nat_of_ascii c in
    if Nat.ltb b 128 then utf8_error (S pos) r
    else if Nat.ltb b 194 then Some (pos, S pos, "invalid start byte", c)
    else if Nat.ltb b 224 then
      match r with
      | EmptyString => Some (pos, S pos, "unexpected end of data", c)
      | String c2 r2 =>
        if utf8_cont c2 then utf8_error (pos + 2)%nat r2
        else Some (pos, S pos, "invalid continuation byte", c)
      end
    else if Nat.ltb b 240 then
      match r with
      | EmptyString => Some (pos, S pos, "unexpected end of data", c)
      | String c2 r2 =>
        if negb (utf8_second_ok b c2)
        then Some (pos, S pos, "invalid continuation byte", c)
        else match r2 with
             | EmptyString => Some (pos, (pos + 2)%nat, "unexpected end of data", c)
             | String c3 r3 =>
               if utf8_cont c3 then utf8_error (pos + 3)%nat r3
               else Some (pos, (pos + 2)%nat, "invalid continuation byte", c)
             end
      end
    else if Nat.ltb b 245 then
      match r with
      | EmptyString => Some (pos, S pos, "unexpected end of data", c)
      | String c2 r2 =>
        if negb (utf8_second_ok b c2)
        then Some (pos, S pos, "invalid continuation byte", c)
        else match r2 with
             | EmptyString => Some (pos, (pos + 2)%nat, "unexpected end of data", c)
             | String c3 r3 =>
               if negb (utf8_cont c3)
               then Some (pos, (pos + 2)%nat, "invalid continuation byte", c)
               else match r3 with
                    | EmptyString => Some (pos, (pos + 3)%nat, "unexpected end of data", c)
                    | String c4 r4 =>
                      if utf8_cont c4 then utf8_error (pos + 4)%nat r4
                      else Some (pos, (pos + 3)%nat, "invalid continuation byte", c)
                    end
             end
      end
    else Some (pos, S pos, "invalid start byte", c)
  end.

Definition hex_digit (n : nat) : ascii :=
  ascii_of_nat (if Nat.ltb n 10 then 48 + n else 87 + n)%nat.

(** [%02x] *)
Definition hex2 (b : nat) : string :=
  String (hex_digit (b / 16)%nat) (String (hex_digit (b mod 16)%nat) EmptyString).

Definition nat_str (n : nat) : string := z_str (Z.of_nat n).

(** [str(UnicodeDecodeError)] for the codec ['utf-8']. *)
Definition decode_error_str (start end_ : nat) (reason : string) (c : ascii) : string :=
  if Nat.eqb end_ (S start) then
    "'utf-8' codec can't decode byte 0x" ++ hex2 (nat_of_ascii c) ++
    " in position " ++ nat_str start ++ ": " ++ reason
  else
    "'utf-8' codec can't decode bytes in position " ++ nat_str start ++ "-" ++
    nat_str (end_ - 1)%nat ++ ": " ++ reason.

(** [b.decode()]; [UnicodeDecodeError] is a subclass of [ValueError]. *)
Definition utf8_decode (b : string) : outcome string :=
  match utf8_error 0 b with
  | None => Ok b
  | Some (start, end_, reason, c) =>
    Raise (ValueError (decode_error_str start end_ reason c))
  end.

(** [t[:n]] on text: the first [n] code points, a continuation byte
    staying with the character it continues. *)
Fixpoint utf8_take (n : nat) (s : string) : string :=
  match s with
  | EmptyString => EmptyString
  | String c r =>
    if utf8_cont c then String c (utf8_take n r)
    else match n with
         | O => EmptyString
         | S n' => String c (utf8_take n' r)
         end
  end.

(** [len(t)]: the number of code points. *)
Fixpoint utf8_len (s : string) : nat :=
  match s with
  | EmptyString => O
  | String c r => if utf8_cont c then utf8_len r else S (utf8_len r)
  end.

(** [t[n:]] *)
Definition utf8_drop (n : nat) (s : string) : string :=
  let k := String.length (utf8_take n s) in
  substring k (String.length s - k)%nat s.

(** The encodings of the characters [str.isspace()] accepts: 0x09-0x0d,
    0x1c-0x20, U+0085, U+00A0, U+1680, U+2000-U+200A, U+2028, U+2029,
    U+202F, U+205F and U+3000. *)
Definition text_ws : list string :=
  map (fold_right (fun n s => String (ascii_of_nat n) s) EmptyString)
      (map (fun n => [n]) [9; 10; 11; 12; 13; 28; 29; 30; 31; 32] ++
       [[194; 133]; [194; 160]; [225; 154; 128]] ++
       map (fun k => [226; 128; k]) [128; 129; 130; 131; 132; 133; 134; 135; 136; 137; 138;
                                      168; 169; 175] ++
       [[226; 129; 159]; [227; 128; 128]])%list%nat.

Fixpoint text_lstrip_fuel (fuel : nat) (s : string) : string :=
  match fuel with
  | O => s
  | S f =>
    match find (fun w => String.prefix w s) text_ws with
    | Some w => text_lstrip_fuel f (substring (String.length w)
                                               (String.length s - String.length w)%nat s)
    | None => s
    end
  end.

Definition ends_with (w s : string) : bool :=
  Nat.leb (String.length w) (String.length s) &&
  String.eqb (substring (String.length s - String.length w)%nat (String.length w) s) w.

Fixpoint text_rstrip_fuel (fuel : nat) (s : string) : string :=
  match fuel with
  | O => s
  | S f =>
    match find (fun w => ends_with w s) text_ws with
    | Some w => text_rstrip_fuel f (substring 0 (String.length s - String.length w)%nat s)
    | None => s
    end
  end.

(** [t.strip()] on text: each step removes at least one byte, so the
    length of [s] bounds the steps. *)
Definition text_strip (s : string) : string :=
  let l := text_lstrip_fuel (String.length s) s in
  text_rstrip_fuel (String.length l) l.

(** ** What the outside world does during one tool call *)

(** The result of [asyncio.create_subprocess_exec]. *)
Inductive spawn_result : Type :=
| Spawned
| SpawnFailed (msg : string).

(** The result of [asyncio.wait_for(proc.communicate(), timeout=...)]:
    the deadline expired, or the child exited with a return code and the
    bytes of its standard output and standard error.  Where the code reads
    them with [decode(errors="ignore")] and slices the text, the model
    slices the bytes, which is the same on ASCII output. *)
Inductive comm_result : Type :=
| CommTimeout
| CommDone (rc : Z) (stdout stderr : string).

Section Tools.

(** [json.loads]: a value, or [ValueError] with the parse message.
    [playwright_fetch], [dictionary_define], [_run_playwright_child] and
    [playwright_snapshot_dom] call [json.loads(stdout.decode())] inside one
    [try] and hand it the raw output: a decoding failure there is one more
    [ValueError] of this function. *)
Variable json_loads : string -> outcome jval.
(** [time.time()] *)
Variable now : jval.
(** [wait_for_port(port=p)]: whether a TCP connect to [p] succeeded within
    the 3 s polling budget. *)
Variable port_up : Z -> bool.
Variable spawn : spawn_result.
Variable comm : comm_result.

Definition create_subprocess_exec : M unit :=
  fun n => match spawn with
           | Spawned => (Ok tt, S n)
           | SpawnFailed m => (Raise (OSError m), n)
           end.

Definition communicate : M (Z * string * string) :=
  match comm with
  | CommTimeout => raise TimeoutError
  | CommDone rc out err => ret (rc, out, err)
  end.

(** [try: body except asyncio.TimeoutError: on_timeout] *)
Definition try_timeout {A} (body : M A) (on_timeout : M A) : M A :=
  try_except body (fun e => match e with
                            | TimeoutError => on_timeout
                            | _ => raise e
                            end).

(** *** [reflex_healthcheck_or_fail] and the per-tool port gate *)

Definition reflex_healthcheck_or_fail (port : Z) : option dict :=
  if negb (port_up port) then
    Some [("status", JStr "error");
          ("phase", JStr "reflex_unavailable");
          ("error", JStr ("Reflex dev server not listening on port " ++ z_str port));
          ("url", JStr ("http://localhost:" ++ z_str port));
          ("timestamp", now)]
  else None.

(** The [if 'localhost:3001' in url ... elif 'localhost:3000' in url ...]
    prologue shared by [playwright_tool], [playwright_snapshot_dom] and
    [playwright_web_inspect]. *)
Definition health_gate (url : string) : option dict :=
  if py_in "localhost:3001" url || py_in "127.0.0.1:3001" url then
    reflex_healthcheck_or_fail 3001
  else if py_in "localhost:3000" url || py_in "127.0.0.1:3000" url then
    reflex_healthcheck_or_fail 3000
  else None.

(** [try: stdout, stderr = await asyncio.wait_for(proc.communicate(), ...)
    except asyncio.TimeoutError: <on_timeout>], then the rest of the body [k]. *)
Definition with_deadline (on_timeout : M jval) (k : Z * string * string -> M jval)
  : M jval :=
  r <- try_timeout (x <- communicate ;; ret (inl x))
                   (v <- on_timeout ;; ret (inr v)) ;;
  match r with
  | inl x => k x
  | inr v => ret v
  end.

(** *** [playwright_fetch] (parent side) *)

Definition playwright_fetch (url : string) : M jval :=
  create_subprocess_exec ;;;
  with_deadline
    (ret (JObj [("status", JStr "error");
                ("error", JStr "timeout after 30s");
                ("url", JStr url)]))
    (fun r =>
     let '(rc, out, err) := r in
     if negb (Z.eqb rc 0) then
       ret (JObj [("status", JStr "error");
                  ("error", JStr ("child exit " ++ z_str rc));
                  ("stderr", JStr (trunc 400 err))])
     else
       try_except (lift (json_loads out))
         (fun e => ret (JObj [("status", JStr "error");
                              ("error", JStr ("bad JSON: " ++ exn_str e));
                              ("raw", JStr (trunc 400 out))]))).

(** *** [_run_playwright_child] and [playwright_tool] *)

Definition run_playwright_child (timeout_s : Z) : M jval :=
  create_subprocess_exec ;;;
  with_deadline
    (ret (JObj [("status", JStr "error");
                ("error", JStr ("timeout after " ++ z_str timeout_s ++ "s"))]))
    (fun r =>
     let '(rc, out, err) := r in
     if negb (Z.eqb rc 0) && str_empty out then
       ret (JObj [("status", JStr "error");
                  ("error", JStr ("child exit " ++ z_str rc));
                  ("stderr", JStr err)])
     else
       try_except (lift (json_loads out))
         (fun e => ret (JObj [("status", JStr "error");
                              ("error", JStr ("bad JSON from child: " ++ exn_str e));
                              ("raw", JStr out)]))).

Definition playwright_tool (url : string) : M jval :=
  match health_gate url with
  | Some h => ret (JObj h)
  | None => run_playwright_child 22
  end.

(** *** [playwright_snapshot_dom] (parent side)

    The locals [stdout] and [stderr] are assigned by the unpacking of
    [proc.communicate()]; on the timeout path that assignment never ran, and
    the handler reads [stderr] all the same. *)

Definition snapshot_timeout_result (url : string) (stderr_local : option string)
  : M jval :=
  err <- read_local "stderr" stderr_local ;;
  ret (JObj [("status", JStr "error");
             ("error", JStr "snapshot timeout after 25s");
             ("url", JStr url);
             ("stderr", if str_empty err then JNull else JStr (trunc 500 err))]).

Definition playwright_snapshot_dom (url : string) : M jval :=
  match health_gate url with
  | Some h => ret (JObj h)
  | None =>
    create_subprocess_exec ;;;
    with_deadline
      (* [stdout, stderr = await ...] raised: [stderr] stays unassigned *)
      (snapshot_timeout_result url None)
      (fun r =>
       let '(rc, out, err) := r in
       if negb (Z.eqb rc 0) && str_empty out then
         ret (JObj [("status", JStr "error");
                    ("error", JStr ("process exit " ++ z_str rc));
                    ("stderr", JStr (trunc 500 err));
                    ("url", JStr url)])
       else
         try_except (lift (json_loads out))
           (fun e => ret (JObj [("status", JStr "error");
                                ("error", JStr ("bad JSON from child: " ++ exn_str e));
                                ("raw", JStr (trunc 1000 out));
                                ("stderr", JStr (trunc 500 err));
                                ("url", JStr url)])))
  end.

(** *** [dictionary_define] (parent side) *)

(** [len(v)] *)
Definition py_len (v : jval) : M Z :=
  match v with
  | JArr l => ret (Z.of_nat (length l))
  | JStr s => ret (Z.of_nat (String.length s))
  | JObj o => ret (Z.of_nat (length o))   (* a parsed object has distinct keys *)
  | _ => raise (TypeError "object has no len()")
  end.

(** [v[i]] for an index [i] already known to lie in [0, len(v)). *)
Definition py_getindex (v : jval) (i : Z) : M jval :=
  match v with
  | JArr l => ret (nth (Z.to_nat i) l JNull)
  | JStr s => ret (JStr (substring (Z.to_nat i) 1 s))
  | JObj _ => raise (KeyError (z_str i))
  | _ => raise (TypeError "object is not subscriptable")
  end.

(** [defs[idx] if 0 <= idx < len(defs) else None] *)
Definition select_sense (defs : jval) (idx : Z) : M jval :=
  if Z.leb 0 idx then
    n <- py_len defs ;;
    if Z.ltb idx n then py_getindex defs idx else ret JNull
  else ret JNull.

(** From [defs = data.get("definitions", [])] to [return data]. *)
Definition define_finish (data : jval) (term : string) (sense_index : Z) : M jval :=
  match data with
  | JObj d =>
    let defs := match getitem "definitions" d with Some v => v | None => JArr [] end in
    let idx := sense_index - 1 in
    requested <- select_sense defs idx ;;
    let d1 := setitem "requested_definition_index" (JNum sense_index) d in
    let d2 := setitem "requested_definition" requested d1 in
    let d3 := setitem "term" (JStr term) d2 in
    ret (JObj d3)
  | _ => raise (AttributeError "object has no attribute 'get'")
  end.

Definition dictionary_define (term : string) (sense_index : Z) : M jval :=
  let base_url := "https://www.merriam-webster.com/dictionary/" ++ term in
  create_subprocess_exec ;;;
  with_deadline
    (ret (JObj [("status", JStr "error"); ("error", JStr "timeout");
                ("term", JStr term); ("url", JStr base_url)]))
    (fun r =>
     let '(rc, out, err) := r in
     if negb (Z.eqb rc 0) || str_empty out then
       ret (JObj [("status", JStr "error");
                  ("error", JStr ("exit " ++ z_str rc));
                  ("stderr", JStr (trunc 300 err));
                  ("term", JStr term); ("url", JStr base_url)])
     else
       parsed <- try_except (data <- lift (json_loads out) ;; ret (inl data))
                   (fun e => ret (inr (JObj [("status", JStr "error");
                                              ("error", JStr ("bad json: " ++ exn_str e));
                                              ("raw", JStr (trunc 400 out))]))) ;;
       match parsed with
       | inl data => define_finish data term sense_index
       | inr res => ret res
       end).

(** The [out] dictionary printed by the child program of
    [dictionary_define], from the definitions it collected. *)
Definition define_child_out (status url : string) (definitions : list string)
  (elapsed_ms : Z) (attempts : list string) : jval :=
  JObj [("status", JStr status);
        ("url", JStr url);
        ("total_definitions", JNum (Z.of_nat (length definitions)));
        ("definitions", JArr (map JStr (firstn 12 definitions)));
        ("elapsed_ms", JNum elapsed_ms);
        ("attempts", JArr (map JStr attempts))].

(** *** [playwright_web_inspect] (parent side) *)

Definition web_inspect_schema (url : string) : dict :=
  [("status", JStr "pending"); ("url", JStr url); ("title", JNull);
   ("final_url", JNull); ("timestamp", now); ("body_text_length", JNull);
   ("has_forms", JNull); ("form_count", JNull); ("has_buttons", JNull);
   ("button_count", JNull); ("input_count", JNull); ("error", JNull);
   ("debug_info", JNull)].

(** One element of the sequence given to [dict.update] (CPython's
    [PyDict_MergeFromSeq2]): it must be a sequence of length 2 whose first
    item is hashable.  A string element is the sequence of its characters,
    an object element the sequence of its keys.  [PairOtherKey] is a pair
    whose key is a number, a boolean or [None]: it is stored under that
    non-string key, which no string key equals, so the entries under the
    string keys of this model are unchanged. *)
Inductive update_item : Type :=
| PairKey (k : string) (v : jval)
| PairOtherKey
| PairErr (e : exn).

Definition update_length_error (i len : nat) : exn :=
  ValueError ("dictionary update sequence element #" ++ nat_str i ++
              " has length " ++ nat_str len ++ "; 2 is required").

Definition update_pair (i : nat) (it : jval) : update_item :=
  match it with
  | JArr [k; v] =>
    match k with
    | JStr s => PairKey s v
    | JArr _ => PairErr (TypeError "unhashable type: 'list'")
    | JObj _ => PairErr (TypeError "unhashable type: 'dict'")
    | _ => PairOtherKey
    end
  | JArr l => PairErr (update_length_error i (length l))
  | JStr s =>
    if Nat.eqb (utf8_len s) 2 then PairKey (utf8_take 1 s) (JStr (utf8_drop 1 s))
    else PairErr (update_length_error i (utf8_len s))
  | JObj [(k1, _); (k2, _)] => PairKey k1 (JStr k2)
  | JObj o => PairErr (update_length_error i (length o))
  | _ => PairErr (TypeError ("cannot convert dictionary update sequence element #" ++
                              nat_str i ++ " to a sequence"))
  end.

(** The elements are merged one after the other; an error leaves the
    dictionary as updated so far. *)
Fixpoint update_from_seq (d : dict) (i : nat) (items : list jval) : dict * option exn :=
  match items with
  | [] => (d, None)
  | it :: rest =>
    match update_pair i it with
    | PairKey k v => update_from_seq (setitem k v d) (S i) rest
    | PairOtherKey => update_from_seq d (S i) rest
    | PairErr e => (d, Some e)
    end
  end.

(** [d.update(v)] in place for a parsed JSON value [v]: the dictionary
    after the call, and the exception it raised, if any.  An object is
    merged key by key; any other value is iterated as a sequence of pairs
    (a string yields one-character strings, so a non-empty one fails on
    its first element); a number, a boolean or [None] is not iterable. *)
Definition dict_update (d : dict) (v : jval) : dict * option exn :=
  match v with
  | JObj o => (update d o, None)
  | JArr items => update_from_seq d 0 items
  | JStr s =>
    if str_empty s then (d, None) else (d, Some (update_length_error 0 1))
  | JNum _ => (d, Some (TypeError "'int' object is not iterable"))
  | JBool _ => (d, Some (TypeError "'bool' object is not iterable"))
  | JNull => (d, Some (TypeError "'NoneType' object is not iterable"))
  end.

(** The body of [except Exception as e:], on the dictionary as it stands. *)
Definition inspect_failure (d : dict) (e : exn) : jval :=
  JObj (update d [("status", JStr "error");
                  ("error", JStr (utf8_take 200 (exn_str e)));
                  ("debug_info", JStr "subprocess_creation_failed")]).

(** [subprocess_result = json.loads(stdout.decode().strip())], the merge
    into [result_schema] and the timestamp.  A [dict.update] that raises
    part-way reaches the outer handler with the dictionary it has already
    changed. *)
Definition inspect_parse (result_schema : dict) (out : string) : M jval :=
  text <- lift (utf8_decode out) ;;
  subprocess_result <- lift (json_loads (text_strip text)) ;;
  match dict_update result_schema subprocess_result with
  | (d, None) => ret (JObj (setitem "timestamp" now d))
  | (d, Some e) => ret (inspect_failure d e)
  end.

(** [stderr.decode()[:200] if stderr else None]: the strict decoding may
    raise. *)
Definition inspect_debug_info (err : string) : M jval :=
  if str_empty err then ret JNull
  else text <- lift (utf8_decode err) ;; ret (JStr (utf8_take 200 text)).

Definition playwright_web_inspect (url : string) : M jval :=
  let result_schema := web_inspect_schema url in
  match health_gate url with
  | Some h => ret (JObj (update result_schema h))
  | None =>
    try_except
      (create_subprocess_exec ;;;
       r <- try_timeout (x <- communicate ;; ret (inl x)) (ret (inr tt)) ;;
       match r with
       | inl (rc, out, err) =>
         if Z.eqb rc 0 && negb (str_empty out) then inspect_parse result_schema out
         else
           debug_info <- inspect_debug_info err ;;
           ret (JObj (update result_schema
                 [("status", JStr "error");
                  ("error", JStr ("Process failed (code: " ++ z_str rc ++ ")"));
                  ("debug_info", debug_info)]))
       | inr _ =>
         (* [kill_process_tree] is called without [await]; [process.wait()]
            is given 2 s; neither raises *)
         ret (JObj (update result_schema
               [("status", JStr "error");
                ("error", JStr "Inspection timed out after 12 seconds");
                ("debug_info", JStr "timeout_killed")]))
       end)
      (fun e => ret (inspect_failure result_schema e))
  end.

End Tools.

(** ** Child programs *)

(** One [page.goto(url, wait_until=..., timeout=...)]: it returns, raises
    Playwright's [TimeoutError], or raises another Playwright [Error]. *)
Inductive nav_outcome : Type :=
| NavOk
| NavTimeout
| NavError (msg : string).

(** What the page answers once loaded: [document.readyState], [page.title()],
    [page.url] (these calls are taken to return), and the counts of the
    detailed extraction of [playwright_web_inspect] (body text length, forms,
    buttons, inputs) or the message of the exception it raised. *)
Record page : Type := mkPage {
  goto : string -> nav_outcome;
  ready_state : string;
  title : string;
  final_url : string;
  details : string + (Z * Z * Z * Z)
}.

(** [p.chromium.launch(...)] followed by [browser.new_page()]. *)
Inductive browser : Type :=
| Launched (p : page)
| LaunchFailed (msg : string).

(** *** Child of [playwright_web_inspect]: [inspect_website] *)

(** The three nested [try: page.goto(...)] blocks.  [inl m]: a Playwright
    error escaped to the outer handler; [inr (navigation_success, debug_info)]
    otherwise. *)
Definition inspect_navigate (p : page) : string + (bool * list string) :=
  match goto p "networkidle" with
  | NavOk => inr (true, ["networkidle_success"])
  | NavError m => inl m
  | NavTimeout =>
    let dbg1 := ["networkidle_timeout"] in
    match goto p "domcontentloaded" with
    | NavOk => inr (true, dbg1 ++ ["domcontentloaded_success"])%list
    | NavError m => inl m
    | NavTimeout =>
      let dbg2 := (dbg1 ++ ["domcontentloaded_timeout"])%list in
      match goto p "load" with
      | NavOk => inr (true, dbg2 ++ ["load_success"])%list
      | NavError m => inl m
      | NavTimeout => inr (false, dbg2 ++ ["load_timeout"])%list
      end
    end
  end.

Definition jstrs (l : list string) : jval := JArr (map JStr l).

(** A URL that the f-string splices into the literals ["{url}"] of the
    child program (its [url] fields and its [page.goto] calls) so that they
    denote the URL itself: no double quote (which ends the literal), no
    backslash (which starts an escape), no line feed or carriage return
    (which end the line) and no NUL (which [argv] cannot carry). *)
Definition url_literal_safe (url : string) : bool :=
  forallb (fun c => negb (existsb (Nat.eqb (nat_of_ascii c)) [34; 92; 10; 13; 0]%nat))
          (list_ascii_of_string url).

(** The child's result, for a URL with [url_literal_safe]: the literal
    ["{url}"] is then [url] itself, and the [goto] calls receive it. *)
Definition inspect_website (url : string) (get_title_only : bool) (b : browser)
  : dict :=
  let launch_failed m :=
      [("status", JStr "error"); ("url", JStr url);
       ("phase", JStr "browser_launch"); ("error", JStr (utf8_take 200 m));
       ("debug_info", jstrs ["playwright_launch_failed"])] in
  match b with
  | LaunchFailed m => launch_failed m
  | Launched p =>
    match inspect_navigate p with
    | inl m => launch_failed m
    | inr (false, debug_info) =>
      [("status", JStr "error"); ("url", JStr url);
       ("error", JStr "All navigation strategies timed out");
       ("debug_info", jstrs debug_info)]
    | inr (true, debug_info) =>
      let debug_info := app debug_info ["ready_state: " ++ ready_state p] in
      let result := [("status", JStr "success"); ("url", JStr url);
                     ("title", JStr (title p)); ("final_url", JStr (final_url p));
                     ("debug_info", jstrs debug_info)] in
      if get_title_only then result
      else
        match details p with
        | inr (body_len, forms, buttons, inputs) =>
          update result
            [("body_text_length", JNum body_len);
             ("has_forms", JBool (Z.ltb 0 forms)); ("form_count", JNum forms);
             ("has_buttons", JBool (Z.ltb 0 buttons)); ("button_count", JNum buttons);
             ("input_count", JNum inputs)]
        | inl m => setitem "detail_error" (JStr (utf8_take 100 m)) result
        end
    end
  end.

(** *** Child of [playwright_fetch]: navigation and post-navigation delay *)



(** [config["delay_ms"] = max(0, int(delay_ms))] in the parent. *)
Definition fetch_config_delay_ms (delay_ms : Z) : Z := Z.max 0 delay_ms.

(** In the child: [if cfg.get("delay_ms"): time.sleep(min(5000, max(0,
    int(cfg["delay_ms"])))/1000.0)].  The delay applied, in milliseconds
    ([0] when the branch is skipped). *)
Definition child_applied_delay_ms (cfg_delay_ms : Z) : Z :=
  if Z.eqb cfg_delay_ms 0 then 0 else Z.min 5000 (Z.max 0 cfg_delay_ms).

Definition fetch_applied_delay_ms (delay_ms : Z) : Z :=
  child_applied_delay_ms (fetch_config_delay_ms delay_ms).

(** ** Program text handed to the child interpreter *)

(** An f-string as its literal parts and its replacement fields. *)
Inductive fpiece : Type :=
| Lit (s : string)
| UrlField             (* {url} *)
| TitleOnlyField.      (* {get_title_only} *)

(** [str(b)] of a Python bool. *)
Definition py_bool_str (b : bool) : string := if b then "True" else "False".

Fixpoint render (url : string) (get_title_only : bool) (t : list fpiece) : string :=
  match t with
  | [] => ""
  | Lit s :: t' => s ++ render url get_title_only t'
  | UrlField :: t' => url ++ render url get_title_only t'
  | TitleOnlyField :: t' => py_bool_str get_title_only ++ render url get_title_only t'
  end.

(** How a child is started: its argument vector and what is written to its
    standard input. *)
Record invocation : Type := mkInvocation {
  argv : list string;
  stdin_text : string
}.

(** The program the interpreter runs: the [-c] argument, together with the
    code the [playwright_fetch] wrapper reads from standard input. *)
Definition program_text (i : invocation) : string * string :=
  (nth 2 (argv i) "", stdin_text i).

Section ProgramTexts.

(** The literal text of the f-string [script] of [playwright_web_inspect]
    between its replacement fields: [{url}] occurs at the three
    [page.goto("{url}", ...)] calls and in the four ["url": "{url}"] entries,
    [{get_title_only}] in [if not {get_title_only}:]. *)
Variables inspect_lit0 inspect_lit1 inspect_lit2 inspect_lit3 inspect_lit4
  inspect_lit5 inspect_lit6 inspect_lit7 inspect_lit8 : string.

(** The child programs the other tools pass unchanged: [child_code] of
    [_run_playwright_child], [snapshot_code] of [playwright_snapshot_dom] (an
    f-string whose braces are all doubled, so without replacement fields),
    [wrapper] and [child_code] of [playwright_fetch], and [child_code] of
    [dictionary_define]. *)
Variables tool_child_code snapshot_code fetch_wrapper fetch_child_code
  define_child_code : string.

Definition inspect_script_template : list fpiece :=
  [Lit inspect_lit0; UrlField; Lit inspect_lit1; UrlField; Lit inspect_lit2;
   UrlField; Lit inspect_lit3; UrlField; Lit inspect_lit4; UrlField;
   Lit inspect_lit5; TitleOnlyField; Lit inspect_lit6; UrlField;
   Lit inspect_lit7; UrlField; Lit inspect_lit8].

Definition web_inspect_invocation (py url : string) (get_title_only : bool)
  : invocation :=
  mkInvocation [py; "-c"; render url get_title_only inspect_script_template] "".

Definition tool_invocation (py url : string) : invocation :=
  mkInvocation [py; "-c"; tool_child_code; url] "".

Definition snapshot_invocation (py url : string) (take_screenshot : bool)
  : invocation :=
  mkInvocation [py; "-c"; snapshot_code; url;
                if take_screenshot then "true" else "false"] "".

(** [config_json] is [json.dumps(config)]. *)
Definition fetch_invocation (py url config_json : string) : invocation :=
  mkInvocation [py; "-c"; fetch_wrapper; url; config_json] fetch_child_code.

Definition define_invocation (py term : string) : invocation :=
  mkInvocation [py; "-c"; define_child_code; term] "".

End ProgramTexts.

(** ** The process-wide semaphore

    [_PLAYWRIGHT_SEMAPHORE = asyncio.Semaphore(2)].  Each tool call is a task
    running a sequence of atomic actions; the event loop interleaves tasks
    at will. *)
Module Sem.

Inductive action : Type :=
| Acquire          (* entering [async with _PLAYWRIGHT_SEMAPHORE] *)
| Spawn            (* [create_subprocess_exec] succeeds *)
| Reap             (* the child is gone: it exited, or was killed *)
| Release.         (* leaving the [async with] block *)

Record state : Type := mkState {
  permits : nat;
  children : nat
}.

Definition init : state := mkState 2 0.

(** [None]: the task blocks ([Acquire] with no permit left). *)
Definition exec (a : action) (s : state) : option state :=
  match a with
  | Acquire =>
    match permits s with
    | O => None
    | S p => Some (mkState p (children s))
    end
  | Spawn => Some (mkState (permits s) (S (children s)))
  | Reap => Some (mkState (permits s) (pred (children s)))
  | Release => Some (mkState (S (permits s)) (children s))
  end.

Definition tasks := list (list action).

(** One task performs its next action. *)
Inductive step : state -> tasks -> state -> tasks -> Prop :=
| step_run (pre post : tasks) (a : action) (rest : list action) (s s' : state) :
    exec a s = Some s' ->
    step s (pre ++ (a :: rest) :: post)%list s' (pre ++ rest :: post)%list.

Inductive reachable : state -> tasks -> state -> tasks -> Prop :=
| reach_refl s ts : reachable s ts s ts
| reach_step s ts s1 ts1 s2 ts2 :
    step s ts s1 ts1 -> reachable s1 ts1 s2 ts2 -> reachable s ts s2 ts2.

(** How a call ends: process creation raised, the deadline expired (the
    child is killed), or the child exited.  Two ways out of the [async with]
    block are left out: a call cancelled while it awaits its child (the
    [CancelledError] leaves the block and releases the permit while the
    child still runs), and the moment between [proc.kill()] and the child's
    death on the timeout path of [playwright_fetch], which does not wait for
    the child before releasing. *)
Inductive exit_path : Type := PathSpawnFail | PathTimeout | PathDone.

Definition child_run (p : exit_path) : list action :=
  match p with
  | PathSpawnFail => []
  | PathTimeout | PathDone => [Spawn; Reap]
  end.

(** [playwright_fetch], [dictionary_define], [playwright_tool] and
    [playwright_snapshot_dom] run their child inside
    [async with _PLAYWRIGHT_SEMAPHORE]; the block releases on every exit. *)
Definition guarded_call (p : exit_path) : list action :=
  Acquire :: app (child_run p) [Release].

(** [playwright_web_inspect] starts its child without the semaphore (on
    its timeout path [kill_process_tree] is not even awaited, so the [Reap]
    there is generous to the code). *)
Definition web_inspect_call (p : exit_path) : list action := child_run p.

End Sem.

(** * Further code of [reflex_dev_agent.py] *)

(** ** Python string primitives on ASCII text *)

(** [str.isspace()] (and the regex class [\s]) on one ASCII character:
    tab, line feed, vertical tab, form feed, carriage return, the
    separators 0x1c-0x1f, and space. *)
Definition py_isspace (c : ascii) : bool :=
  match nat_of_ascii c with
  | 9 | 10 | 11 | 12 | 13 | 28 | 29 | 30 | 31 | 32 => true
  | _ => false
  end%nat.

Fixpoint py_lstrip (s : string) : string :=
  match s with
  | EmptyString => EmptyString
  | String c s' => if py_isspace c then py_lstrip s' else s
  end.

Fixpoint py_rstrip (s : string) : string :=
  match s with
  | EmptyString => EmptyString
  | String c s' =>
    let r := py_rstrip s' in
    if py_isspace c && str_empty r then EmptyString else String c r
  end.

(** [s.strip()] *)
Definition py_strip (s : string) : string := py_rstrip (py_lstrip s).

(** [s.lstrip(chars)] *)
Fixpoint lstrip_chars (chars s : string) : string :=
  match s with
  | EmptyString => EmptyString
  | String c s' => if py_in (String c EmptyString) chars then lstrip_chars chars s' else s
  end.

(** [re.sub(r"\s+", " ", s)]: every run of whitespace becomes one space.
    [in_ws]: the previous character belonged to a run. *)
Fixpoint collapse_ws (in_ws : bool) (s : string) : string :=
  match s with
  | EmptyString => EmptyString
  | String c s' =>
    if py_isspace c then
      if in_ws then collapse_ws true s' else String " " (collapse_ws true s')
    else String c (collapse_ws false s')
  end.

Definition sub_ws (s : string) : string := collapse_ws false s.



(** [c.lower()] on ASCII. *)
Definition ascii_lower (c : ascii) : ascii :=
  let n := nat_of_ascii c in
  if (65 <=? n)%nat && (n <=? 90)%nat then ascii_of_nat (n + 32) else c.

Fixpoint str_lower (s : string) : string :=
  match s with
  | EmptyString => EmptyString
  | String c s' => String (ascii_lower c) (str_lower s')
  end.

(** ** [playwright_fetch]: the [selectors] argument *)


(** ** [clean_ws] of the [playwright_fetch] child *)

Section CleanWs.

(** The three characters of the literal ["â€¦"] appended on truncation
    (outside ASCII, so kept abstract). *)
Variable ellipsis : string.

(** [s[:n]] for an integer [n]: a negative [n] stops [-n] characters
    before the end (at the start when [-n] exceeds the length). *)
Definition py_slice_to (n : Z) (s : string) : string :=
  let stop := if Z.ltb n 0 then Z.of_nat (String.length s) + n else n in
  substring 0 (Z.to_nat stop) s.

(** [clean_ws(s, limit)]; a [limit] of [None] is false, as [0] is. *)
Definition clean_ws (s : string) (limit : Z) : string :=
  if str_empty s then s
  else
    let s := py_strip (sub_ws s) in
    if negb (Z.eqb limit 0) && Z.ltb limit (Z.of_nat (String.length s))
    then py_slice_to limit s ++ ellipsis
    else s.

End CleanWs.



(** ** [clean] and the collection loop of the [dictionary_define] child *)

(** The part of [s] before its first [']'] and the part after it. *)
Fixpoint split_at_close (s : string) : option (string * string) :=
  match s with
  | EmptyString => None
  | String c s' =>
    if Ascii.eqb c "]" then Some (EmptyString, s')
    else match split_at_close s' with
         | Some (a, b) => Some (String c a, b)
         | None => None
         end
  end.

(** [re.sub(r"^\[[^\]]+\]\s*", "", t)] *)
Definition drop_bracket_prefix (t : string) : string :=
  match t with
  | String c rest =>
    if Ascii.eqb c "[" then
      match split_at_close rest with
      | Some (inside, after) => if str_empty inside then t else py_lstrip after
      | None => t
      end
    else t
  | EmptyString => t
  end.

Definition define_clean (txt : string) : string :=
  let t := py_strip (sub_ws txt) in
  let t := py_strip (lstrip_chars ": " t) in
  drop_bracket_prefix t.

(** [re.match(r"^see ", c, re.IGNORECASE)] *)
Definition starts_with_see (c : string) : bool :=
  String.prefix "see " (str_lower c).

(** The loop over the [span.dtText] nodes: [None] is a node whose
    [inner_text()] raised. *)
Fixpoint collect_definitions (nodes : list (option string)) (definitions : list string)
  : list string :=
  match nodes with
  | [] => definitions
  | None :: ns => collect_definitions ns definitions
  | Some raw :: ns =>
    let c := define_clean (py_strip raw) in
    if str_empty c then collect_definitions ns definitions
    else if starts_with_see c then collect_definitions ns definitions
    else
      let definitions := app definitions [c] in
      if (20 <=? length definitions)%nat then definitions
      else collect_definitions ns definitions
  end.

(** ** The argument vector a child program reads *)

(** [python -c code a1 a2 ...] runs [code] with [sys.argv = ["-c", a1, a2, ...]]. *)
Definition child_sys_argv (i : invocation) : list string := "-c" :: skipn 3 (argv i).

(** [sys.argv[n]]: [None] is the [IndexError]. *)
Definition sys_argv_get (sa : list string) (n : nat) : option string := nth_error sa n.

(** [main(sys.argv[1])] in the child of [_run_playwright_child]. *)
Definition tool_child_url (sa : list string) : option string := sys_argv_get sa 1.

(** [url = sys.argv[1]; take_screenshot = sys.argv[2].lower() == "true" if
    len(sys.argv) > 2 else True] in the child of [playwright_snapshot_dom]. *)
Definition snapshot_child_args (sa : list string) : option (string * bool) :=
  match sys_argv_get sa 1 with
  | None => None
  | Some url =>
    let take :=
      if (2 <? length sa)%nat then
        match sys_argv_get sa 2 with
        | Some a => String.eqb (str_lower a) "true"
        | None => true
        end
      else true in
    Some (url, take)
  end.

(** [url = sys.argv[1]; cfg = json.loads(sys.argv[2])] in the wrapper of
    [playwright_fetch]: the URL and the configuration text. *)
Definition fetch_wrapper_args (sa : list string) : option (string * string) :=
  match sys_argv_get sa 1, sys_argv_get sa 2 with
  | Some url, Some cfg => Some (url, cfg)
  | _, _ => None
  end.

(** [TERM = sys.argv[1]; URL = f"https://www.merriam-webster.com/dictionary/{TERM}"]
    in the child of [dictionary_define]. *)
Definition define_child_url (sa : list string) : option string :=
  match sys_argv_get sa 1 with
  | Some term => Some ("https://www.merriam-webster.com/dictionary/" ++ term)
  | None => None
  end.

(** ** [playwright_fetch] child: the screenshot block and its warning *)

(** [page.screenshot(...)]: the byte count, SHA-256 hex digest and base64
    text of the PNG it returned, or the message of the exception it raised. *)
Inductive shot_outcome : Type :=
| ShotOk (nbytes : Z) (sha256 : string) (b64 : string)
| ShotError (msg : string).

(** The values of [screenshot_b64] and [screenshot_meta] after the
    [if cfg.get("screenshot"):] block. *)
Definition screenshot_block (screenshot ephemeral full_page : bool) (o : shot_outcome)
  : jval * jval :=
  if screenshot then
    match o with
    | ShotOk n sha b64 =>
      if ephemeral then
        (JNull, JObj [("bytes", JNum n); ("sha256", JStr sha);
                      ("full_page", JBool full_page)])
      else (JStr b64, JNull)
    | ShotError m => (JStr (trunc 160 ("screenshot_error: " ++ m)), JNull)
    end
  else (JNull, JNull).

(** Python truthiness of [None] or a string. *)
Definition jtruthy (v : jval) : bool :=
  match v with
  | JNull => false
  | JStr s => negb (str_empty s)
  | JBool b => b
  | JNum z => negb (Z.eqb z 0)
  | JArr l => match l with [] => false | _ => true end
  | JObj o => match o with [] => false | _ => true end
  end.

Definition is_jnull (v : jval) : bool := match v with JNull => true | _ => false end.

(** The [screenshot_base64] and [screenshot_meta] entries of the result,
    after [if cfg.get("screenshot") and cfg.get("ephemeral") and
    screenshot_meta is None and not screenshot_b64: result["screenshot_meta"]
    = {"warning": ...}]. *)
Definition fetch_screenshot_fields (screenshot ephemeral full_page : bool)
  (o : shot_outcome) : jval * jval :=
  let '(b64, meta) := screenshot_block screenshot ephemeral full_page o in
  if screenshot && ephemeral && is_jnull meta && negb (jtruthy b64) then
    (b64, JObj [("warning", JStr "ephemeral requested but no screenshot captured")])
  else (b64, meta).

(** ** [playwright_fetch] child: [selector_results] *)

(** [page.query_selector(sel)] and [el.inner_text()]: the element's text,
    no element, or the message of the exception raised. *)
Inductive sel_outcome : Type :=
| SelFound (text : string)
| SelMissing
| SelError (msg : string).

Definition selector_results (ellipsis : string) (query : string -> sel_outcome)
  (sels : list string) : dict :=
  fold_left (fun d sel =>
               setitem sel
                 (match query sel with
                  | SelFound t => JStr (clean_ws ellipsis t 500)
                  | SelMissing => JNull
                  | SelError m => JStr (trunc 120 ("error: " ++ m))
                  end) d)
            sels [].

(** ** [playwright_diagnose] *)

(** How one [run_stage] call ends: process creation raised, the deadline
    expired (the child is then killed and waited for), or the child exited
    with a return code and output; [elapsed] is [time.time() - t0]. *)
Inductive stage_outcome : Type :=
| StageSpawnError (msg : string)
| StageTimeout (elapsed : Z)
| StageExit (rc : Z) (stdout stderr : string) (elapsed : Z).

(** The record [run_stage] appends to [stages], and its return value. *)
Definition run_stage (name : string) (timeout : Z) (o : stage_outcome) : dict * bool :=
  match o with
  | StageSpawnError m =>
    ([("stage", JStr name); ("status", JStr "spawn_error"); ("error", JStr m)], false)
  | StageTimeout el =>
    ([("stage", JStr name); ("status", JStr "timeout"); ("timeout_s", JNum timeout);
      ("elapsed", JNum el)], false)
  | StageExit rc out err el =>
    ([("stage", JStr name); ("status", JStr (if Z.eqb rc 0 then "ok" else "error"));
      ("returncode", JNum rc); ("elapsed", JNum el);
      ("stdout", JStr (trunc 400 (py_strip out)));
      ("stderr", JStr (trunc 400 (py_strip err)))], Z.eqb rc 0)
  end.

(** [proc.returncode == 0], the value [run_stage] returns. *)
Definition stage_ok (o : stage_outcome) : bool :=
  match o with StageExit rc _ _ _ => Z.eqb rc 0 | _ => false end.

Section Diagnose.

(** [PW_PY], [os.path.exists(PW_PY)], [PW_ENV.get("PLAYWRIGHT_BROWSERS_PATH")]
    and [time.time()]. *)
Variable pw_py : string.
Variable pw_py_exists : bool.
Variable browsers_path : jval.
Variable now : jval.

(** The four stages in order: [python_start], [import_playwright],
    [launch_browser], [navigate]. *)
Definition playwright_diagnose (url : string) (o1 o2 o3 o4 : stage_outcome) : dict :=
  let summary := [("status", JStr "running"); ("url", JStr url);
                  ("PW_PY", JStr pw_py); ("PW_PY_exists", JBool pw_py_exists);
                  ("PLAYWRIGHT_BROWSERS_PATH", browsers_path); ("timestamp", now)] in
  let '(r1, _) := run_stage "python_start" 5 o1 in
  let '(r2, ok2) := run_stage "import_playwright" 8 o2 in
  if negb ok2 then
    update summary [("status", JStr "error"); ("failed_stage", JStr "import_playwright");
                    ("stages", JArr (map JObj [r1; r2]))]
  else
    let '(r3, ok3) := run_stage "launch_browser" 12 o3 in
    if negb ok3 then
      update summary [("status", JStr "error"); ("failed_stage", JStr "launch_browser");
                      ("stages", JArr (map JObj [r1; r2; r3]))]
    else
      let '(r4, _) := run_stage "navigate" 14 o4 in
      update summary [("status", JStr "success");
                      ("stages", JArr (map JObj [r1; r2; r3; r4]))].

End Diagnose.

(** ** [verify_playwright_setup] *)

(** The dictionary [result] as first built, with the lists [setup_commands]
    and [errors] (which the code appends to in place) filled in at return. *)
Definition verify_result (d : dict) (setup_commands errors : list string) : dict :=
  setitem "errors" (jstrs errors) (setitem "setup_commands" (jstrs setup_commands) d).

Definition verify_initial (now : jval) : dict :=
  [("status", JStr "checking"); ("playwright_installed", JBool false);
   ("chromium_available", JBool false); ("can_launch_browser", JBool false);
   ("setup_commands", JArr []); ("errors", JArr []); ("timestamp", now)].

(** [import_ok]: whether [from playwright.sync_api import sync_playwright]
    succeeded; [spawn] and [comm] are the test subprocess's creation and
    its [communicate()] under the 10 s deadline.  [error_msg] is decoded
    strictly: output that is not UTF-8 raises inside the [try]. *)
Definition verify_playwright_setup (now : jval) (spawn : spawn_result)
  (comm : comm_result) (import_ok : bool) : M dict :=
  let result := verify_initial now in
  if negb import_ok then
    ret (verify_result (setitem "status" (JStr "error") result)
           ["pip install playwright"] ["Playwright not installed"])
  else
    let result := setitem "playwright_installed" (JBool true) result in
    r <- try_except
      (create_subprocess_exec spawn ;;;
       x <- communicate comm ;;
       let '(_, out, err) := x in
       if py_in "SUCCESS" out then
         ret (update result [("status", JStr "success"); ("chromium_available", JBool true);
                             ("can_launch_browser", JBool true)], [], [])
       else
         error_msg <- lift (utf8_decode (if str_empty err then out else err)) ;;
         ret (setitem "status" (JStr "error") result,
              (if py_in "Chromium" error_msg || py_in "executable" error_msg
               then ["python -m playwright install chromium"] else []),
              ["Browser launch failed: " ++ utf8_take 200 error_msg]))
      (fun e => match e with
                | TimeoutError =>
                  ret (setitem "status" (JStr "error") result,
                       ["python -m playwright install --with-deps chromium"],
                       ["Browser test timed out"])
                | _ =>
                  ret (setitem "status" (JStr "error") result, [],
                       ["Setup check failed: " ++ utf8_take 200 (exn_str e)])
                end) ;;
    let '(d, cmds, errs) := r in
    ret (verify_result d cmds errs).

(** * Properties *)

(** ** Dictionary helpers *)

Lemma setitem_keeps_key (k k' : string) (v : jval) (d : dict) :
  In k (keys d) -> In k (keys (setitem k' v d)).
Proof.
  induction d as [|[k0 v0] d IH]; simpl; [tauto|].
  destruct (String.eqb k' k0) eqn:E; simpl.
  - apply String.eqb_eq in E; subst; tauto.
  - intros [H|H]; [left; exact H | right; exact (IH H)].
Qed.

Lemma update_keeps_key (k : string) (o d : dict) :
  In k (keys d) -> In k (keys (update d o)).
Proof.
  unfold update. revert d.
  induction o as [|[k' v] o IH]; simpl; intros d H; [exact H|].
  apply IH, setitem_keeps_key, H.
Qed.

Lemma update_from_seq_keeps_key (k : string) (d : dict) (i : nat) (items : list jval) :
  In k (keys d) -> In k (keys (fst (update_from_seq d i items))).
Proof.
  revert d i. induction items as [|it items IH]; intros d i H; simpl; [exact H|].
  destruct (update_pair i it); simpl; auto using setitem_keeps_key.
Qed.

Lemma dict_update_keeps_key (k : string) (d : dict) (v : jval) :
  In k (keys d) -> In k (keys (fst (dict_update d v))).
Proof.
  intro H. destruct v; simpl; auto using update_keeps_key, update_from_seq_keeps_key.
  destruct (str_empty s); exact H.
Qed.

Lemma inspect_failure_keeps_key (k : string) (d : dict) (e : exn) :
  In k (keys d) -> exists d', inspect_failure d e = JObj d' /\ In k (keys d').
Proof. intro H. eexists. split; [reflexivity|]. apply update_keeps_key, H. Qed.

Lemma utf8_decode_raises_value_error (s : string) (e : exn) :
  utf8_decode s = Raise e -> exists m, e = ValueError m.
Proof.
  unfold utf8_decode. destruct (utf8_error 0 s) as [[[[st en] r] c]|];
    intro H; [injection H as <-; eexists; reflexivity|discriminate H].
Qed.

(** [d.update([["title", "T"]])] sets [title]; [d.update([])] changes
    nothing; [d.update("ab")] raises on its first element. *)
Example dict_update_sequences :
  dict_update [("title", JNull)] (JArr [JArr [JStr "title"; JStr "T"]])
    = ([("title", JStr "T")], None) /\
  dict_update [("title", JNull)] (JArr []) = ([("title", JNull)], None) /\
  dict_update [("title", JNull)] (JStr "ab")
    = ([("title", JNull)],
       Some (ValueError "dictionary update sequence element #0 has length 1; 2 is required")).
Proof. split; [|split]; reflexivity. Qed.

(** A child whose output parses to a list of pairs: [playwright_web_inspect]
    merges it into its schema. *)
Example web_inspect_merges_pairs :
  exists d,
    run (playwright_web_inspect (fun _ => Ok (JArr [JArr [JStr "title"; JStr "T"]])) JNull
           (fun _ => true) Spawned (CommDone 0 "[[1]]" "") "https://example.com/")
      = (Ok (JObj d), 1%nat) /\
    getitem "title" d = Some (JStr "T") /\ getitem "status" d = Some (JStr "pending").
Proof. eexists. split; [reflexivity|]. split; reflexivity. Qed.

Lemma nth_map_JStr (n : nat) (l : list string) :
  (n < length l)%nat -> nth n (map JStr l) JNull = JStr (nth n l "").
Proof.
  revert n; induction l as [|x l IH]; intros [|n] H; simpl in *; try lia.
  - reflexivity.
  - apply IH; lia.
Qed.

Lemma append_cancel_l (s t u : string) : s ++ t = s ++ u -> t = u.
Proof.
  induction s as [|c s IH]; simpl; intro H; [exact H|].
  injection H; exact IH.
Qed.

(** ** C9 *)

(** C9: in [playwright_fetch] the post-navigation delay the child actually
    sleeps is [min(5000, max(0, delay_ms))] milliseconds, always within
    [0, 5000]; a request of 50000 ms sleeps 5000 ms. *)
Theorem fetch_delay_clamped :
  (forall delay_ms : Z,
     0 <= fetch_applied_delay_ms delay_ms <= 5000 /\
     fetch_applied_delay_ms delay_ms = Z.min 5000 (Z.max 0 delay_ms)) /\
  fetch_applied_delay_ms 50000 = 5000.
Proof.
  split; [|reflexivity].
  intro d. unfold fetch_applied_delay_ms, child_applied_delay_ms,
    fetch_config_delay_ms.
  destruct (Z.eqb_spec (Z.max 0 d) 0) as [E|E]; lia.
Qed.

(** ** C10 *)

(** C10: when the child of [dictionary_define] prints its [out] dictionary,
    the call returns (no indexing error, for every [sense_index]) a
    dictionary whose [definitions] list holds at most 12 entries and whose
    [requested_definition] is entry [sense_index] (1-based) of that list
    when [1 <= sense_index <= len(definitions)], and null otherwise. *)
Theorem define_sense_selection_total
    (json_loads : string -> outcome jval) (out err term status url : string)
    (sense_index elapsed : Z) (ds attempts : list string) :
  str_empty out = false ->
  json_loads out = Ok (define_child_out status url ds elapsed attempts) ->
  exists d,
    run (dictionary_define json_loads Spawned (CommDone 0 out err) term sense_index)
      = (Ok (JObj d), 1%nat) /\
    getitem "definitions" d = Some (jstrs (firstn 12 ds)) /\
    (length (firstn 12 ds) <= 12)%nat /\
    getitem "requested_definition" d =
      Some (if Z.leb 1 sense_index && Z.leb sense_index (Z.of_nat (length (firstn 12 ds)))
            then JStr (nth (Z.to_nat (sense_index - 1)) (firstn 12 ds) "")
            else JNull).
Proof.
  intros Hout Hj.
  assert (E : run (dictionary_define json_loads Spawned (CommDone 0 out err)
                     term sense_index)
              = define_finish (define_child_out status url ds elapsed attempts)
                  term sense_index 1%nat).
  { unfold run, dictionary_define, with_deadline, try_timeout, try_except,
      bind, create_subprocess_exec, communicate, ret, lift.
    cbn -[define_finish define_child_out str_empty].
    rewrite Hout, Hj. reflexivity. }
  rewrite E. clear E.
  assert (Hl : (length (firstn 12 ds) <= 12)%nat) by (rewrite length_firstn; lia).
  unfold define_child_out, jstrs. revert Hl. generalize (firstn 12 ds) as l. intros l Hl.
  unfold define_finish, select_sense, py_len, py_getindex, ret, bind. simpl.
  destruct (Z.leb_spec 0 (sense_index - 1)) as [H0|H0].
  - destruct (Z.ltb_spec (sense_index - 1) (Z.of_nat (length (map JStr l))))
      as [H1|H1]; simpl.
    + rewrite length_map in H1.
      eexists; split; [reflexivity|]; simpl.
      split; [reflexivity|]. split; [exact Hl|].
      replace (Z.leb 1 sense_index && Z.leb sense_index (Z.of_nat (length l)))
        with true by (symmetry; apply andb_true_iff; split; apply Z.leb_le; lia).
      f_equal. apply nth_map_JStr. lia.
    + rewrite length_map in H1.
      eexists; split; [reflexivity|]; simpl.
      split; [reflexivity|]. split; [exact Hl|].
      replace (Z.leb 1 sense_index && Z.leb sense_index (Z.of_nat (length l)))
        with false; [reflexivity|].
      symmetry. apply andb_false_iff. right. apply Z.leb_gt. lia.
  - eexists; split; [reflexivity|]; simpl.
    split; [reflexivity|]. split; [exact Hl|].
    replace (Z.leb 1 sense_index) with false; [reflexivity|].
    symmetry. apply Z.leb_gt. lia.
Qed.

Lemma define_sense_selection_total_witness :
  str_empty "{}" = false /\
  exists d,
    run (dictionary_define (fun _ => Ok (define_child_out "ok" "u" ["a"; "b"] 5 []))
           Spawned (CommDone 0 "{}" "") "cogito" 2) = (Ok (JObj d), 1%nat) /\
    getitem "definitions" d = Some (jstrs (firstn 12 ["a"; "b"])) /\
    (length (firstn 12 ["a"; "b"]) <= 12)%nat /\
    getitem "requested_definition" d = Some (JStr "b").
Proof.
  split; [reflexivity|].
  exact (define_sense_selection_total
           (fun _ => Ok (define_child_out "ok" "u" ["a"; "b"] 5 []))
           "{}" "" "cogito" "ok" "u" 2 5 ["a"; "b"] [] eq_refl eq_refl).
Defined.

(** ** C1 *)

(** C1 (failing input): [playwright_snapshot_dom] on a non-local URL whose
    child outlives the 25 s deadline raises [UnboundLocalError] (its timeout
    handler reads [stderr], which the interrupted unpacking never assigned);
    and [playwright_fetch], whose [create_subprocess_exec] is outside any
    [try], raises the [OSError] of a failed process creation.  Both
    exceptions reach the caller instead of a result dictionary. *)
Theorem inspection_ops_raise_to_caller
    (json_loads : string -> outcome jval) (now : jval) (port_up : Z -> bool)
    (msg : string) (comm : comm_result) :
  run (playwright_snapshot_dom json_loads now port_up Spawned CommTimeout
         "https://example.com/")
    = (Raise (UnboundLocalError "stderr"), 1%nat) /\
  run (playwright_fetch json_loads (SpawnFailed msg) comm "https://example.com/")
    = (Raise (OSError msg), 0%nat).
Proof. split; reflexivity. Qed.

(** ** C7 *)

Create HintDb dict_keys.
#[local] Hint Resolve setitem_keeps_key update_keeps_key : dict_keys.

(** C7 (as amended): [playwright_web_inspect] never raises, and on every
    path its result is a dictionary holding every key of its schema
    [result_schema]. *)
Theorem web_inspect_keeps_schema_keys
    (json_loads : string -> outcome jval) (now : jval) (port_up : Z -> bool)
    (spawn : spawn_result) (comm : comm_result) (url : string) :
  exists d n,
    run (playwright_web_inspect json_loads now port_up spawn comm url)
      = (Ok (JObj d), n) /\
    forall k, In k (keys (web_inspect_schema now url)) -> In k (keys d).
Proof.
  unfold run, playwright_web_inspect.
  destruct (health_gate now port_up url) as [h|].
  { do 2 eexists; split; [reflexivity|]. auto with dict_keys. }
  set (sch := web_inspect_schema now url).
  assert (F : forall d e, (forall k, In k (keys sch) -> In k (keys d)) ->
            exists d', inspect_failure d e = JObj d' /\
                       forall k, In k (keys sch) -> In k (keys d')).
  { intros d e Hd. eexists. split; [reflexivity|].
    intros k Hk. apply update_keeps_key, Hd, Hk. }
  assert (F0 : forall e, exists d', inspect_failure sch e = JObj d' /\
                         forall k, In k (keys sch) -> In k (keys d')).
  { intro e. apply F. tauto. }
  unfold try_except, try_timeout, bind, create_subprocess_exec, communicate,
    ret, raise, lift.
  destruct spawn as [|m]; cbn -[update setitem sch inspect_failure].
  2: { destruct (F0 (OSError m)) as [d' [-> Hd']]. eauto. }
  destruct comm as [|rc out err]; cbn -[update setitem sch inspect_failure].
  { do 2 eexists; split; [reflexivity|]. auto with dict_keys. }
  destruct (Z.eqb rc 0 && negb (str_empty out)).
  - unfold inspect_parse, bind, lift, ret.
    destruct (utf8_decode out) as [t|e]; cbn -[update setitem sch inspect_failure dict_update].
    2: { destruct (F0 e) as [d' [-> Hd']]. eauto. }
    destruct (json_loads (text_strip t)) as [v|e];
      cbn -[update setitem sch inspect_failure dict_update].
    2: { destruct (F0 e) as [d' [-> Hd']]. eauto. }
    pose proof (fun k => dict_update_keeps_key k sch v) as K.
    destruct (dict_update sch v) as [d [e|]]; cbn -[update setitem sch inspect_failure].
    + destruct (F d e K) as [d' [-> Hd']]. eauto.
    + do 2 eexists; split; [reflexivity|]. intros k Hk. apply setitem_keeps_key, K, Hk.
  - unfold inspect_debug_info, bind, lift, ret.
    destruct (str_empty err).
    + do 2 eexists; split; [reflexivity|]. auto with dict_keys.
    + destruct (utf8_decode err) as [t|e]; cbn -[update setitem sch inspect_failure].
      * do 2 eexists; split; [reflexivity|]. auto with dict_keys.
      * destruct (F0 e) as [d' [-> Hd']]. eauto.
Qed.

(** C7 (counterexample): [playwright_fetch] has no fixed key set: its
    timeout result carries a [url] key that its process-exit result omits. *)
Lemma fetch_key_set_depends_on_path :
  exists d1 d2,
    run (playwright_fetch (fun _ => Ok JNull) Spawned CommTimeout "http://a/")
      = (Ok (JObj d1), 1%nat) /\
    run (playwright_fetch (fun _ => Ok JNull) Spawned (CommDone 1 "" "boom") "http://a/")
      = (Ok (JObj d2), 1%nat) /\
    In "url" (keys d1) /\ ~ In "url" (keys d2).
Proof.
  do 2 eexists. split; [reflexivity|]. split; [reflexivity|].
  split.
  - simpl. tauto.
  - simpl. intros [H|[H|[H|[]]]]; discriminate H.
Qed.

(** ** C4 *)

(** C4 (as amended): for [playwright_tool], [playwright_snapshot_dom] and
    [playwright_web_inspect], when the URL names local port [P] (3001, or
    else 3000) and [wait_for_port] reports [P] closed, the call returns
    [status = "error"], [phase = "reflex_unavailable"] and the message
    "Reflex dev server not listening on port P" (merged into the schema for
    [playwright_web_inspect]) without creating any child process. *)
Theorem local_port_down_short_circuits
    (json_loads : string -> outcome jval) (now : jval) (port_up : Z -> bool)
    (spawn : spawn_result) (comm : comm_result) (url : string) (P : Z) :
  (P = 3001 /\ (py_in "localhost:3001" url || py_in "127.0.0.1:3001" url) = true) \/
  (P = 3000 /\ (py_in "localhost:3001" url || py_in "127.0.0.1:3001" url) = false /\
   (py_in "localhost:3000" url || py_in "127.0.0.1:3000" url) = true) ->
  port_up P = false ->
  let h := [("status", JStr "error");
            ("phase", JStr "reflex_unavailable");
            ("error", JStr ("Reflex dev server not listening on port " ++ z_str P));
            ("url", JStr ("http://localhost:" ++ z_str P));
            ("timestamp", now)] in
  run (playwright_tool json_loads now port_up spawn comm url) = (Ok (JObj h), 0%nat) /\
  run (playwright_snapshot_dom json_loads now port_up spawn comm url)
    = (Ok (JObj h), 0%nat) /\
  run (playwright_web_inspect json_loads now port_up spawn comm url)
    = (Ok (JObj (update (web_inspect_schema now url) h)), 0%nat).
Proof.
  intros HP Hdown h.
  assert (G : health_gate now port_up url = Some h).
  { unfold health_gate, reflex_healthcheck_or_fail, h.
    destruct HP as [[-> H1]|[-> [H1 H2]]].
    - rewrite H1, Hdown. reflexivity.
    - rewrite H1, H2, Hdown. reflexivity. }
  unfold run, playwright_tool, playwright_snapshot_dom, playwright_web_inspect.
  rewrite G. repeat split.
Qed.

Lemma local_port_down_short_circuits_witness :
  ((3001 = 3001 /\ (py_in "localhost:3001" "http://localhost:3001/"
                    || py_in "127.0.0.1:3001" "http://localhost:3001/") = true) \/
   (3001 = 3000 /\ false = false /\ false = true)) /\
  run (playwright_tool (fun _ => Ok JNull) JNull (fun _ => false) Spawned CommTimeout
         "http://localhost:3001/")
    = (Ok (JObj [("status", JStr "error");
                 ("phase", JStr "reflex_unavailable");
                 ("error", JStr ("Reflex dev server not listening on port " ++ z_str 3001));
                 ("url", JStr ("http://localhost:" ++ z_str 3001));
                 ("timestamp", JNull)]), 0%nat).
Proof.
  split; [left; split; reflexivity|].
  refine (proj1 (local_port_down_short_circuits (fun _ => Ok JNull) JNull
                   (fun _ => false) Spawned CommTimeout "http://localhost:3001/" 3001
                   (or_introl (conj eq_refl eq_refl)) eq_refl)).
Defined.

(** C4 (counterexample): with port 3001 closed, [playwright_tool] reports
    the phase [reflex_unavailable], not [navigation]; and [playwright_fetch]
    has no health check: it creates a child for the same URL. *)
Lemma local_port_down_phase_and_fetch :
  exists d,
    run (playwright_tool (fun _ => Ok JNull) JNull (fun _ => false) Spawned
           CommTimeout "http://localhost:3001/") = (Ok (JObj d), 0%nat) /\
    getitem "phase" d = Some (JStr "reflex_unavailable") /\
    getitem "phase" d <> Some (JStr "navigation") /\
    snd (run (playwright_fetch (fun _ => Ok JNull) Spawned (CommDone 0 "{}" "")
                "http://localhost:3001/")) = 1%nat.
Proof.
  eexists. split; [reflexivity|]. split; [reflexivity|]. split; [|reflexivity].
  intro H. vm_compute in H. discriminate H.
Qed.

(** ** C5 *)




(** ** C6 *)









(** ** C2 *)





(** ** C3 *)

Module SemFacts.
Import Sem.

Definition count (f : list action -> bool) (ts : tasks) : nat := length (filter f ts).

(** Inside [async with]: the permit is held. *)
Definition holding (t : list action) : bool :=
  match t with Spawn :: _ | Reap :: _ | Release :: _ => true | _ => false end.

(** Between a successful [Spawn] and its [Reap]. *)
Definition running (t : list action) : bool :=
  match t with Reap :: _ => true | _ => false end.

(** The remainders of a [guarded_call]. *)
Definition guarded_suffix (t : list action) : bool :=
  match t with
  | [Acquire; Spawn; Reap; Release] | [Acquire; Release] | [Spawn; Reap; Release]
  | [Reap; Release] | [Release] | [] => true
  | _ => false
  end.

Definition inv (s : state) (ts : tasks) : Prop :=
  Forall (fun t => guarded_suffix t = true) ts /\
  (permits s + count holding ts = 2)%nat /\
  children s = count running ts.

Lemma guarded_suffix_cases (a : action) (rest : list action) :
  guarded_suffix (a :: rest) = true ->
  a :: rest = [Acquire; Spawn; Reap; Release] \/ a :: rest = [Acquire; Release] \/
  a :: rest = [Spawn; Reap; Release] \/ a :: rest = [Reap; Release] \/
  a :: rest = [Release].
Proof.
  destruct a; destruct rest as [|[] [|[] [|[] [|[] ?]]]]; simpl; intro H;
    try discriminate H; tauto.
Qed.

Lemma count_mid (f : list action -> bool) (pre post : tasks) (t : list action) :
  count f (pre ++ t :: post)%list = (count f pre + (if f t then 1 else 0) + count f post)%nat.
Proof.
  unfold count. rewrite filter_app, length_app. simpl.
  destruct (f t); simpl; lia.
Qed.

Lemma inv_step (s : state) (ts : tasks) (s' : state) (ts' : tasks) :
  step s ts s' ts' -> inv s ts -> inv s' ts'.
Proof.
  intros [pre post a rest s0 s1 E] [HF [HP HC]].
  apply Forall_app in HF as [Hpre Hmid].
  inversion Hmid as [|x l Hx Hpost]; subst.
  rewrite count_mid in HP, HC.
  split; [apply Forall_app; split; [exact Hpre|constructor; [|exact Hpost]]|].
  - destruct (guarded_suffix_cases a rest Hx) as [H|[H|[H|[H|H]]]];
      injection H as -> ->; reflexivity.
  - rewrite !count_mid.
    destruct (guarded_suffix_cases a rest Hx) as [H|[H|[H|[H|H]]]];
      injection H as -> ->; simpl in *;
      try (destruct (permits s0) as [|p] eqn:Ep; [discriminate E|]);
      injection E as <-; simpl; lia.
Qed.

Lemma inv_reachable (s : state) (ts : tasks) (s' : state) (ts' : tasks) :
  reachable s ts s' ts' -> inv s ts -> inv s' ts'.
Proof.
  induction 1 as [|s ts s1 ts1 s2 ts2 Hs _ IH]; [tauto|].
  intro H. apply IH. exact (inv_step _ _ _ _ Hs H).
Qed.

Lemma inv_init (ps : list exit_path) : inv init (map guarded_call ps).
Proof.
  unfold inv, count. induction ps as [|p ps IH]; simpl.
  - repeat split. constructor.
  - destruct IH as [HF [HP HC]].
    destruct p; simpl in *; (split; [constructor; [reflexivity|exact HF]|split; assumption]).
Qed.

Lemma running_le_holding (ts : tasks) : (count running ts <= count holding ts)%nat.
Proof.
  unfold count. induction ts as [|t ts IH]; simpl; [lia|].
  destruct t as [|[] ?]; simpl; lia.
Qed.

(** Tool calls that all go through [_PLAYWRIGHT_SEMAPHORE], on the exit
    paths of [exit_path], never have more than two children alive at once,
    however the event loop interleaves them. *)
Lemma guarded_calls_respect_cap (ps : list exit_path) (s : state) (ts : tasks) :
  reachable init (map guarded_call ps) s ts -> (children s <= 2)%nat.
Proof.
  intro R. destruct (inv_reachable _ _ _ _ R (inv_init ps)) as [_ [HP HC]].
  pose proof (running_le_holding ts). lia.
Qed.

(** On each of its exit paths a semaphore-guarded call acquires the
    semaphore once and releases it once, the release being its last
    action. *)
Lemma guarded_call_releases_once (p : exit_path) :
  count_occ (fun x y : action => ltac:(decide equality)) (guarded_call p) Acquire = 1%nat /\
  count_occ (fun x y : action => ltac:(decide equality)) (guarded_call p) Release = 1%nat /\
  last (guarded_call p) Acquire = Release.
Proof. destruct p; repeat split. Qed.

End SemFacts.

(** C3 (failing input): three concurrent [playwright_web_inspect] calls,
    which never touch [_PLAYWRIGHT_SEMAPHORE], reach a state with three
    browser child processes alive at once. *)
Theorem web_inspect_bypasses_cap :
  exists s ts,
    Sem.reachable Sem.init
      [Sem.web_inspect_call Sem.PathDone; Sem.web_inspect_call Sem.PathDone;
       Sem.web_inspect_call Sem.PathDone] s ts /\
    Sem.children s = 3%nat.
Proof.
  do 2 eexists. split.
  2: shelve.
  eapply Sem.reach_step.
  { exact (Sem.step_run [] [[Sem.Spawn; Sem.Reap]; [Sem.Spawn; Sem.Reap]]
             Sem.Spawn [Sem.Reap] Sem.init _ eq_refl). }
  eapply Sem.reach_step.
  { exact (Sem.step_run [[Sem.Reap]] [[Sem.Spawn; Sem.Reap]]
             Sem.Spawn [Sem.Reap] _ _ eq_refl). }
  eapply Sem.reach_step.
  { exact (Sem.step_run [[Sem.Reap]; [Sem.Reap]] []
             Sem.Spawn [Sem.Reap] _ _ eq_refl). }
  apply Sem.reach_refl.
  Unshelve. reflexivity.
Qed.

(** ** C8 *)

(** C8 (failing input): whatever the literal text of the programs, the
    children of [playwright_tool], [playwright_snapshot_dom],
    [playwright_fetch] and [dictionary_define] run the same program text for
    every URL (the URL travels in [argv]), while [playwright_web_inspect]
    formats the URL into its script: the URLs ["http://a/"] and
    ["http://b/"] give two different programs. *)
Theorem web_inspect_program_depends_on_url
    (l0 l1 l2 l3 l4 l5 l6 l7 l8 : string)
    (tool_child_code snapshot_code fetch_wrapper fetch_child_code
     define_child_code py : string)
    (u1 u2 cfg1 cfg2 : string) (take1 take2 get_title_only : bool) :
  program_text (tool_invocation tool_child_code py u1)
    = program_text (tool_invocation tool_child_code py u2) /\
  program_text (snapshot_invocation snapshot_code py u1 take1)
    = program_text (snapshot_invocation snapshot_code py u2 take2) /\
  program_text (fetch_invocation fetch_wrapper fetch_child_code py u1 cfg1)
    = program_text (fetch_invocation fetch_wrapper fetch_child_code py u2 cfg2) /\
  program_text (define_invocation define_child_code py u1)
    = program_text (define_invocation define_child_code py u2) /\
  program_text (web_inspect_invocation l0 l1 l2 l3 l4 l5 l6 l7 l8 py "http://a/"
                  get_title_only)
    <> program_text (web_inspect_invocation l0 l1 l2 l3 l4 l5 l6 l7 l8 py "http://b/"
                      get_title_only).
Proof.
  repeat split.
  cbn [program_text web_inspect_invocation argv stdin_text nth render
       inspect_script_template].
  intro H. injection H as H.
  apply append_cancel_l in H.
  apply (f_equal (String.get 7)) in H.
  simpl in H. discriminate H.
Qed.

(** * Properties of the further code *)

(** ** String helpers *)










(** ** [ws_ok] through collapsing, stripping and truncation *)





Lemma substring_prefix_length (s : string) (n : nat) :
  (String.length (substring 0 n s) <= n)%nat.
Proof.
  revert n. induction s as [|c s IH]; intros [|n]; simpl; try lia.
  specialize (IH n). lia.
Qed.

(** ** X1 *)


(** ** X2 *)



(** [clean_ws("abc", -1)] is ["ab"] followed by the ellipsis. *)
Example clean_ws_negative_limit (ellipsis : string) :
  clean_ws ellipsis "abc" (-1) = "ab" ++ ellipsis.
Proof. reflexivity. Qed.

(** ** X3 *)

Lemma collect_definitions_inv (nodes : list (option string)) (defs : list string) :
  (length defs < 20)%nat ->
  Forall (fun c => str_empty c = false /\ starts_with_see c = false) defs ->
  (length (collect_definitions nodes defs) <= 20)%nat /\
  Forall (fun c => str_empty c = false /\ starts_with_see c = false)
    (collect_definitions nodes defs).
Proof.
  revert defs. induction nodes as [|[raw|] ns IH]; intros defs Hl Hf;
    cbn [collect_definitions].
  - split; [lia|exact Hf].
  - destruct (str_empty (define_clean (py_strip raw))) eqn:E1; [exact (IH _ Hl Hf)|].
    destruct (starts_with_see (define_clean (py_strip raw))) eqn:E2;
      [exact (IH _ Hl Hf)|].
    assert (Hf' : Forall (fun c => str_empty c = false /\ starts_with_see c = false)
                    (app defs [define_clean (py_strip raw)]))
      by (apply Forall_app; split; [exact Hf|constructor; [split; assumption|constructor]]).
    cbv zeta. rewrite length_app. cbn [length].
    destruct (Nat.leb_spec 20 (length defs + 1)) as [H|H].
    + split; [rewrite length_app; simpl; lia|exact Hf'].
    + apply IH; [rewrite length_app; simpl; lia|exact Hf'].
  - exact (IH _ Hl Hf).
Qed.

(** X3: the [dictionary_define] child collects at most 20 definitions,
    none of them empty and none starting with ["see "] in any letter case,
    whatever the page's [span.dtText] nodes hold. *)
Theorem define_collect_bounded (nodes : list (option string)) :
  (length (collect_definitions nodes []) <= 20)%nat /\
  Forall (fun c => str_empty c = false /\ starts_with_see c = false)
    (collect_definitions nodes []).
Proof.
  apply collect_definitions_inv; [simpl; lia|constructor].
Qed.

(** ** X4 *)

(** X4: whatever the URL or term, the child programs of [playwright_tool],
    [playwright_snapshot_dom], [playwright_fetch] and [dictionary_define]
    read back from [sys.argv] exactly the URL (and, for the snapshot, the
    [take_screenshot] flag; for the fetch, the configuration text) the parent
    passed, and the dictionary child builds the same page URL as the parent. *)
Theorem child_argv_round_trip
    (tool_child_code snapshot_code fetch_wrapper fetch_child_code define_child_code
     py url term config_json : string) (take_screenshot : bool) :
  tool_child_url (child_sys_argv (tool_invocation tool_child_code py url)) = Some url /\
  snapshot_child_args (child_sys_argv (snapshot_invocation snapshot_code py url take_screenshot))
    = Some (url, take_screenshot) /\
  fetch_wrapper_args
    (child_sys_argv (fetch_invocation fetch_wrapper fetch_child_code py url config_json))
    = Some (url, config_json) /\
  define_child_url (child_sys_argv (define_invocation define_child_code py term))
    = Some ("https://www.merriam-webster.com/dictionary/" ++ term).
Proof.
  repeat split; destruct take_screenshot; reflexivity.
Qed.

(** ** X5 *)

Lemma run_stage_ok (name : string) (timeout : Z) (o : stage_outcome) :
  snd (run_stage name timeout o) = stage_ok o.
Proof. destruct o; reflexivity. Qed.

(** X5: [playwright_diagnose] reports [success] exactly when the
    [import_playwright] and [launch_browser] stages exit with code 0, with
    four stage records, whatever the interpreter-start and navigate stages
    did; otherwise [error] with [failed_stage] naming the first of these two
    that failed, and two or three stage records. *)
Theorem diagnose_outcome (pw_py : string) (pw_py_exists : bool) (browsers_path now : jval)
    (url : string) (o1 o2 o3 o4 : stage_outcome) :
  let r := playwright_diagnose pw_py pw_py_exists browsers_path now url o1 o2 o3 o4 in
  getitem "status" r = Some (JStr (if stage_ok o2 && stage_ok o3 then "success" else "error")) /\
  getitem "failed_stage" r =
    (if stage_ok o2 then if stage_ok o3 then None else Some (JStr "launch_browser")
     else Some (JStr "import_playwright")) /\
  exists stages, getitem "stages" r = Some (JArr stages) /\
    length stages = (if stage_ok o2 then if stage_ok o3 then 4 else 3 else 2)%nat.
Proof.
  unfold playwright_diagnose.
  destruct (run_stage "python_start" 5 o1) as [r1 b1].
  pose proof (run_stage_ok "import_playwright" 8 o2) as H2.
  destruct (run_stage "import_playwright" 8 o2) as [r2 b2]. simpl in H2. subst b2.
  destruct (stage_ok o2); simpl.
  - pose proof (run_stage_ok "launch_browser" 12 o3) as H3.
    destruct (run_stage "launch_browser" 12 o3) as [r3 b3]. simpl in H3. subst b3.
    destruct (stage_ok o3); simpl.
    + destruct (run_stage "navigate" 14 o4) as [r4 b4]. simpl.
      split; [reflexivity|]. split; [reflexivity|]. eexists; split; reflexivity.
    + split; [reflexivity|]. split; [reflexivity|]. eexists; split; reflexivity.
  - split; [reflexivity|]. split; [reflexivity|]. eexists; split; reflexivity.
Qed.

(** ** X6 *)

(** X6: [verify_playwright_setup] never raises and never leaves [status]
    at ["checking"]: it reports [success] with no error exactly when the
    import succeeded, the test process started and, before the 10 s
    deadline, printed ["SUCCESS"] (whatever its exit code); otherwise
    [error] with at least one error message. *)
Theorem verify_setup_outcome (now : jval) (spawn : spawn_result) (comm : comm_result)
    (import_ok : bool) :
  exists d errs,
    fst (run (verify_playwright_setup now spawn comm import_ok)) = Ok d /\
    getitem "errors" d = Some (jstrs errs) /\
    ((getitem "status" d = Some (JStr "success") /\ errs = [] /\
      (import_ok = true /\ spawn = Spawned /\
       exists rc out err, comm = CommDone rc out err /\ py_in "SUCCESS" out = true)) \/
     (getitem "status" d = Some (JStr "error") /\ errs <> [] /\
      ~ (import_ok = true /\ spawn = Spawned /\
         exists rc out err, comm = CommDone rc out err /\ py_in "SUCCESS" out = true))).
Proof.
  destruct import_ok.
  2:{ do 2 eexists. split; [reflexivity|]. split; [reflexivity|].
      right. split; [reflexivity|]. split; [discriminate|].
      intros [H _]; discriminate. }
  destruct spawn as [|m].
  2:{ do 2 eexists. split; [reflexivity|]. split; [reflexivity|].
      right. split; [reflexivity|]. split; [discriminate|].
      intros [_ [H _]]; discriminate. }
  destruct comm as [|rc out err].
  - do 2 eexists. split; [reflexivity|]. split; [reflexivity|].
    right. split; [reflexivity|]. split; [discriminate|].
    intros [_ [_ [rc [out [err [H _]]]]]]; discriminate.
  - destruct (py_in "SUCCESS" out) eqn:E.
    + do 2 eexists.
      split; [unfold run, verify_playwright_setup, try_except, bind,
              create_subprocess_exec, communicate, ret; simpl; rewrite E; reflexivity|].
      split; [reflexivity|].
      left. split; [reflexivity|]. split; [reflexivity|].
      split; [reflexivity|]. split; [reflexivity|]. exists rc, out, err. split; [reflexivity|exact E].
    + unfold run, verify_playwright_setup, try_except, bind,
        create_subprocess_exec, communicate, ret, lift.
      cbn -[utf8_decode str_empty py_in utf8_take setitem update verify_result].
      rewrite E.
      destruct (utf8_decode (if str_empty err then out else err)) eqn:D;
        [|destruct (utf8_decode_raises_value_error _ _ D) as [m ->]];
        do 2 eexists; (split; [reflexivity|]); (split; [reflexivity|]);
        right; (split; [reflexivity|]); (split; [discriminate|]);
        intros [_ [_ [rc' [out' [err' [H H']]]]]]; injection H as <- <- <-; congruence.
Qed.

(** ** X7 *)

(** X7: when the test process of [verify_playwright_setup] exits without
    printing ["SUCCESS"], the message is its standard error, or its standard
    output when standard error is empty, decoded strictly.  When it decodes,
    the error is "Browser launch failed: " with the first 200 characters of
    the message, and the install command for Chromium is suggested exactly
    when the message mentions ["Chromium"] or ["executable"].  When it is not
    UTF-8, the decoding error is reported as "Setup check failed: ..." with
    no command suggested.  The status is ["error"] either way. *)
Theorem verify_launch_failure_report (now : jval) (rc : Z) (out err : string) :
  py_in "SUCCESS" out = false ->
  let raw := if str_empty err then out else err in
  exists d,
    fst (run (verify_playwright_setup now Spawned (CommDone rc out err) true)) = Ok d /\
    getitem "status" d = Some (JStr "error") /\
    getitem "errors" d =
      Some (jstrs [match utf8_decode raw with
                   | Ok error_msg => "Browser launch failed: " ++ utf8_take 200 error_msg
                   | Raise e => "Setup check failed: " ++ utf8_take 200 (exn_str e)
                   end]) /\
    getitem "setup_commands" d =
      Some (jstrs (match utf8_decode raw with
                   | Ok error_msg =>
                     if py_in "Chromium" error_msg || py_in "executable" error_msg
                     then ["python -m playwright install chromium"] else []
                   | Raise _ => []
                   end)).
Proof.
  intros E raw.
  unfold run, verify_playwright_setup, try_except, bind,
    create_subprocess_exec, communicate, ret, lift.
  cbn -[utf8_decode str_empty py_in utf8_take setitem update verify_result].
  rewrite E. fold raw.
  destruct (utf8_decode raw) as [msg|e] eqn:D;
    [|destruct (utf8_decode_raises_value_error _ _ D) as [m ->]]; eexists;
    (split; [reflexivity|]); (split; [reflexivity|]); split; reflexivity.
Qed.

(** The message "Executable doesn't exist at /home/jos" followed by the
    Latin-1 byte 0xe9 on standard error, and the same message in UTF-8 with
    no mention of a lower-case "executable". *)
Lemma verify_launch_failure_report_witness :
  py_in "SUCCESS" "ERROR: no browser" = false /\
  (exists d,
    fst (run (verify_playwright_setup JNull Spawned
                (CommDone 0 "ERROR: no browser"
                   ("Executable doesn't exist at /home/jos" ++
                    String (ascii_of_nat 233) EmptyString)) true)) = Ok d /\
    getitem "status" d = Some (JStr "error") /\
    getitem "errors" d =
      Some (jstrs ["Setup check failed: 'utf-8' codec can't decode byte 0xe9 in position 37: unexpected end of data"]) /\
    getitem "setup_commands" d = Some (jstrs [])) /\
  (exists d,
    fst (run (verify_playwright_setup JNull Spawned
                (CommDone 0 "ERROR: no browser" "Executable doesn't exist") true)) = Ok d /\
    getitem "status" d = Some (JStr "error") /\
    getitem "errors" d =
      Some (jstrs ["Browser launch failed: Executable doesn't exist"]) /\
    getitem "setup_commands" d = Some (jstrs [])).
Proof.
  split; [reflexivity|]. split.
  - exact (verify_launch_failure_report JNull 0 "ERROR: no browser"
             ("Executable doesn't exist at /home/jos" ++
              String (ascii_of_nat 233) EmptyString) eq_refl).
  - exact (verify_launch_failure_report JNull 0 "ERROR: no browser"
             "Executable doesn't exist" eq_refl).
Defined.

(** ** X8 *)

(** X8: the ["ephemeral requested but no screenshot captured"] warning of
    the [playwright_fetch] child is never attached: with [screenshot] and
    [ephemeral] both set, the screenshot block always leaves either the
    metadata or a non-empty [screenshot_error: ...] text, so the result's
    screenshot fields are exactly what the block computed. *)
Theorem fetch_screenshot_warning_unreachable (screenshot ephemeral full_page : bool)
    (o : shot_outcome) :
  fetch_screenshot_fields screenshot ephemeral full_page o =
    screenshot_block screenshot ephemeral full_page o.
Proof.
  unfold fetch_screenshot_fields, screenshot_block.
  destruct screenshot, ephemeral, o; reflexivity.
Qed.

(** ** Dictionary lemmas for the further properties *)

Lemma keys_setitem_iff (k k' : string) (v : jval) (d : dict) :
  In k (keys (setitem k' v d)) <-> k = k' \/ In k (keys d).
Proof.
  induction d as [|[k0 v0] d IH]; simpl.
  - split; [intros [H|[]]; left; symmetry; exact H|intros [H|[]]; left; symmetry; exact H].
  - destruct (String.eqb k' k0) eqn:E; simpl.
    + apply String.eqb_eq in E; subst k0. split; [tauto|].
      intros [H|H]; [left; symmetry; exact H|exact H].
    + rewrite IH. split; intros [H|[H|H]]; tauto.
Qed.

Lemma nodup_setitem (k : string) (v : jval) (d : dict) :
  NoDup (keys d) -> NoDup (keys (setitem k v d)).
Proof.
  induction d as [|[k0 v0] d IH]; simpl; intro H.
  - constructor; [intros []|constructor].
  - inversion H as [|? ? Hn Hd]; subst.
    destruct (String.eqb k k0) eqn:E; simpl.
    + apply String.eqb_eq in E; subst k0. constructor; assumption.
    + constructor; [|exact (IH Hd)].
      rewrite keys_setitem_iff. intros [H'|H']; [|exact (Hn H')].
      subst k0. rewrite String.eqb_refl in E. discriminate.
Qed.



(** ** X9 *)

Lemma selector_fold_keys (ellipsis : string) (query : string -> sel_outcome)
    (sels : list string) (d : dict) (k : string) :
  let f := fun d sel =>
             setitem sel
               (match query sel with
                | SelFound t => JStr (clean_ws ellipsis t 500)
                | SelMissing => JNull
                | SelError m => JStr (trunc 120 ("error: " ++ m))
                end) d in
  (In k (keys (fold_left f sels d)) <-> In k sels \/ In k (keys d)) /\
  (NoDup (keys d) -> NoDup (keys (fold_left f sels d))).
Proof.
  intro f. revert d. induction sels as [|s sels IH]; intro d; simpl.
  - split; [tauto|exact (fun H => H)].
  - destruct (IH (f d s)) as [IH1 IH2]. split.
    + rewrite IH1. unfold f at 1. rewrite keys_setitem_iff.
      split; intro H; repeat destruct H as [H|H]; subst; tauto.
    + intro H. apply IH2. unfold f. apply nodup_setitem, H.
Qed.

(** X9: the [selectors_extracted] dictionary of the [playwright_fetch]
    child has one entry per distinct requested selector and no other: its
    keys are exactly the selectors, without repetition, whatever each query
    returned or raised. *)
Theorem selector_results_keys (ellipsis : string) (query : string -> sel_outcome)
    (sels : list string) :
  NoDup (keys (selector_results ellipsis query sels)) /\
  forall k, In k (keys (selector_results ellipsis query sels)) <-> In k sels.
Proof.
  unfold selector_results. split.
  - apply (selector_fold_keys ellipsis query sels [] ""). constructor.
  - intro k. rewrite (proj1 (selector_fold_keys ellipsis query sels [] k)).
    simpl. tauto.
Qed.

(** ** X10 *)





(** ** X11 *)

(** X11: in the [playwright_web_inspect] child, a failure of the detailed
    page extraction after a successful navigation keeps [status =
    "success"]: the result gains a [detail_error] text cut to 100 characters
    and carries none of the count fields.  (For a URL that the child
    program's string literals carry unchanged.) *)
Theorem inspect_detail_error_keeps_success (url : string) (p : page)
    (debug_info : list string) (m : string) :
  url_literal_safe url = true ->
  inspect_navigate p = inr (true, debug_info) ->
  details p = inl m ->
  let r := inspect_website url false (Launched p) in
  getitem "status" r = Some (JStr "success") /\
  getitem "detail_error" r = Some (JStr (utf8_take 100 m)) /\
  getitem "body_text_length" r = None /\ getitem "form_count" r = None.
Proof.
  intros _ Hn Hd r. unfold r, inspect_website. rewrite Hn, Hd.
  repeat split; reflexivity.
Qed.

Lemma inspect_detail_error_keeps_success_witness :
  let p := mkPage (fun _ => NavOk) "complete" "Home" "http://a/" (inl "boom") in
  url_literal_safe "http://a/" = true /\
  inspect_navigate p = inr (true, ["networkidle_success"]) /\
  details p = inl "boom" /\
  getitem "status" (inspect_website "http://a/" false (Launched p)) = Some (JStr "success") /\
  getitem "detail_error" (inspect_website "http://a/" false (Launched p))
    = Some (JStr (utf8_take 100 "boom")) /\
  getitem "body_text_length" (inspect_website "http://a/" false (Launched p)) = None /\
  getitem "form_count" (inspect_website "http://a/" false (Launched p)) = None.
Proof.
  intro p. split; [reflexivity|]. split; [reflexivity|]. split; [reflexivity|].
  exact (inspect_detail_error_keeps_success "http://a/" p ["networkidle_success"] "boom"
           eq_refl eq_refl eq_refl).
Defined.

(** ** X12 *)

(** A computation that creates no process, and one that creates at most one. *)
Definition keeps_count {A} (m : M A) : Prop := forall n, snd (m n) = n.
Definition adds_at_most_one {A} (m : M A) : Prop := forall n, (snd (m n) <= S n)%nat.

Lemma keeps_ret {A} (a : A) : keeps_count (ret a).
Proof. intro n; reflexivity. Qed.

Lemma keeps_raise {A} (e : exn) : keeps_count (@raise A e).
Proof. intro n; reflexivity. Qed.

Lemma keeps_lift {A} (o : outcome A) : keeps_count (lift o).
Proof. intro n; reflexivity. Qed.

Lemma keeps_communicate (comm : comm_result) : keeps_count (communicate comm).
Proof. destruct comm; intro n; reflexivity. Qed.

Lemma keeps_bind {A B} (m : M A) (f : A -> M B) :
  keeps_count m -> (forall a, keeps_count (f a)) -> keeps_count (bind m f).
Proof.
  intros Hm Hf n. unfold bind. specialize (Hm n).
  destruct (m n) as [[a|e] n']; simpl in *; subst; [apply Hf|reflexivity].
Qed.

Lemma keeps_try {A} (m : M A) (h : exn -> M A) :
  keeps_count m -> (forall e, keeps_count (h e)) -> keeps_count (try_except m h).
Proof.
  intros Hm Hh n. unfold try_except. specialize (Hm n).
  destruct (m n) as [[a|e] n']; simpl in *; subst; [reflexivity|apply Hh].
Qed.

Lemma adds_keeps {A} (m : M A) : keeps_count m -> adds_at_most_one m.
Proof. intros H n. rewrite H. lia. Qed.

Lemma adds_create (spawn : spawn_result) : adds_at_most_one (create_subprocess_exec spawn).
Proof. intro n; destruct spawn; simpl; lia. Qed.

Lemma adds_bind {A B} (m : M A) (f : A -> M B) :
  adds_at_most_one m -> (forall a, keeps_count (f a)) -> adds_at_most_one (bind m f).
Proof.
  intros Hm Hf n. unfold bind. specialize (Hm n).
  destruct (m n) as [[a|e] n']; simpl in *; [rewrite Hf|]; exact Hm.
Qed.

Lemma adds_try {A} (m : M A) (h : exn -> M A) :
  adds_at_most_one m -> (forall e, keeps_count (h e)) -> adds_at_most_one (try_except m h).
Proof.
  intros Hm Hh n. unfold try_except. specialize (Hm n).
  destruct (m n) as [[a|e] n']; simpl in *; [|rewrite Hh]; exact Hm.
Qed.

Ltac keeps_tac :=
  repeat first
    [ apply keeps_ret | apply keeps_raise | apply keeps_lift | apply keeps_communicate
    | apply keeps_bind; intros | apply keeps_try; intros
    | match goal with
      | |- keeps_count (match ?x with _ => _ end) => destruct x
      end ].

Lemma keeps_define_finish (data : jval) (term : string) (sense_index : Z) :
  keeps_count (define_finish data term sense_index).
Proof.
  unfold define_finish, select_sense, py_len, py_getindex. keeps_tac.
Qed.

Lemma keeps_with_deadline (comm : comm_result) (on_timeout : M jval)
    (k : Z * string * string -> M jval) :
  keeps_count on_timeout -> (forall x, keeps_count (k x)) ->
  keeps_count (with_deadline comm on_timeout k).
Proof.
  intros Ht Hk. unfold with_deadline, try_timeout. keeps_tac; auto.
Qed.

Lemma spawn_count_bound {A} (m : M A) : adds_at_most_one m -> (snd (run m) <= 1)%nat.
Proof. intro H. exact (H 0%nat). Qed.

(** X12: no tool call ever retries process creation: [playwright_fetch],
    [playwright_tool], [playwright_snapshot_dom], [dictionary_define] and
    [playwright_web_inspect] each create at most one child process, on
    every path (port check, failed creation, timeout, exit, bad output). *)
Theorem tool_calls_spawn_at_most_once
    (json_loads : string -> outcome jval) (now : jval) (port_up : Z -> bool)
    (spawn : spawn_result) (comm : comm_result) (url term : string) (sense_index : Z) :
  (snd (run (playwright_fetch json_loads spawn comm url)) <= 1)%nat /\
  (snd (run (playwright_tool json_loads now port_up spawn comm url)) <= 1)%nat /\
  (snd (run (playwright_snapshot_dom json_loads now port_up spawn comm url)) <= 1)%nat /\
  (snd (run (dictionary_define json_loads spawn comm term sense_index)) <= 1)%nat /\
  (snd (run (playwright_web_inspect json_loads now port_up spawn comm url)) <= 1)%nat.
Proof.
  repeat split; apply spawn_count_bound.
  - unfold playwright_fetch. apply adds_bind; [apply adds_create|intro].
    apply keeps_with_deadline; intros; keeps_tac.
  - unfold playwright_tool, run_playwright_child.
    destruct (health_gate now port_up url); [apply adds_keeps, keeps_ret|].
    apply adds_bind; [apply adds_create|intro].
    apply keeps_with_deadline; intros; keeps_tac.
  - unfold playwright_snapshot_dom, snapshot_timeout_result, read_local.
    destruct (health_gate now port_up url); [apply adds_keeps, keeps_ret|].
    apply adds_bind; [apply adds_create|intro].
    apply keeps_with_deadline; intros; keeps_tac.
  - unfold dictionary_define. apply adds_bind; [apply adds_create|intro].
    apply keeps_with_deadline; intros; keeps_tac. apply keeps_define_finish.
  - unfold playwright_web_inspect, inspect_parse, inspect_debug_info.
    destruct (health_gate now port_up url); [apply adds_keeps, keeps_ret|].
    apply adds_try; [|intros; keeps_tac].
    apply adds_bind; [apply adds_create|intro]. keeps_tac.
    all: match goal with
         | |- keeps_count (if ?b then _ else _) => destruct b
         end; keeps_tac.
Qed.
